(** * assessor-cli: a shallow embedding of [assessor-cli.py]

    The script enumerates the networking resources of every (project, region)
    pair given on the command line through the Compute Engine client and
    stores each collection as a JSON file under [output/].

    The embedding keeps the script's shape: one state-and-exception monad
    for the three effects the script has (requests to the API client,
    [print], the filesystem), the three functions [check_region],
    [get_network_info] and [main] written statement by statement, and the
    Python built-ins they use ([str.split], [dict] subscription, [for] over
    a value, [os.path.join]) with Python's behaviour, exceptions included. *)

From Stdlib Require Import ZArith Ascii.
From stdpp Require Import base option list strings gmap fin_maps.

Set Warnings "-register-all".

(** ** Python values *)

(** What the API client hands back from [execute()]: parsed JSON.  A number
    is kept as its literal; the script never computes with one.  A [JObj]
    lists the members of a [dict] in insertion order. *)
Inductive json : Type :=
  | JNull
  | JBool (b : bool)
  | JNum (literal : string)
  | JStr (s : string)
  | JArr (elements : list json)
  | JObj (members : list (string * json)).

(** The exceptions that can cross the script. *)
Inductive exn : Type :=
  | KeyError (key : string)
  | TypeError
  | OSError (path : string)
  | HttpError (detail : string)
  | DefaultCredentialsError
  | SystemExit (code : Z).

Inductive Result (A : Type) : Type :=
  | Ok (a : A)
  | Raise (e : exn).
Arguments Ok {A} a.
Arguments Raise {A} e.

(** [d.get]-like search of a member list, first binding wins. *)
Fixpoint assoc {A : Type} (key : string) (members : list (string * A)) : option A :=
  match members with
  | [] => None
  | (k, v) :: rest => if String.eqb k key then Some v else assoc key rest
  end.

(** [v[key]] for a [str] key: a [dict] answers or raises [KeyError]; every
    other JSON value raises [TypeError]. *)
Definition py_getitem (v : json) (key : string) : Result json :=
  match v with
  | JObj members =>
      match assoc key members with
      | Some x => Ok x
      | None => Raise (KeyError key)
      end
  | _ => Raise TypeError
  end.

Fixpoint chars (s : string) : list json :=
  match s with
  | EmptyString => []
  | String c rest => JStr (String c EmptyString) :: chars rest
  end.

(** What [for x in v] walks over: the elements of a list, the keys of a
    dict, the characters of a string; the other values are not iterable. *)
Definition py_iter (v : json) : Result (list json) :=
  match v with
  | JArr elements => Ok elements
  | JObj members => Ok (map (fun kv => JStr (fst kv)) members)
  | JStr s => Ok (chars s)
  | _ => Raise TypeError
  end.

(** [v == s] for a [str] [s]: only an equal [str] compares equal. *)
Definition py_eq_str (v : json) (s : string) : bool :=
  match v with
  | JStr t => String.eqb t s
  | _ => false
  end.

(** [s.split(",")]: every comma separates, empty pieces are kept, and the
    result is never empty (one empty piece for the empty string).  The comma is
    ASCII, so splitting the UTF-8 bytes splits the code points alike. *)
Fixpoint str_split (sep : ascii) (s : string) : list string :=
  match s with
  | EmptyString => [EmptyString]
  | String c rest =>
      if Ascii.eqb c sep then EmptyString :: str_split sep rest
      else match str_split sep rest with
           | piece :: pieces => String c piece :: pieces
           | [] => [String c EmptyString]
           end
  end.

(** [sep.join(pieces)]. *)
Fixpoint str_join (sep : ascii) (pieces : list string) : string :=
  match pieces with
  | [] => EmptyString
  | [piece] => piece
  | piece :: rest => piece +:+ String sep (str_join sep rest)
  end.

(** [s[:n]] *)
Fixpoint str_prefix (n : nat) (s : string) : string :=
  match n, s with
  | S n', String c rest => String c (str_prefix n' rest)
  | _, _ => EmptyString
  end.

Definition startswith_slash (s : string) : bool :=
  match s with
  | String c _ => Ascii.eqb c "/"
  | EmptyString => false
  end.

Fixpoint endswith_slash (s : string) : bool :=
  match s with
  | EmptyString => false
  | String c EmptyString => Ascii.eqb c "/"
  | String _ rest => endswith_slash rest
  end.

(** [os.path.join(a, b)] of [posixpath]: an absolute [b] replaces [a]. *)
Definition os_path_join (a b : string) : string :=
  if startswith_slash b then b
  else if String.eqb a EmptyString || endswith_slash a then a +:+ b
  else a +:+ "/" +:+ b.

(** ** The world the script acts on *)

(** The list methods of the Compute Engine client the script calls. *)
Inductive Collection : Type :=
  | regions | networks | subnetworks | routes | interconnects
  | regionBackendServices | vpnGateways | externalVpnGateways
  | vpnTunnels | routers.

(** [service.<collection>().list(project=..., region=...)]; [None] when the
    call passes no [region]. *)
Record Request : Type := List_ {
  collection : Collection;
  req_project : string;
  req_region : option string
}.

(** The client: what [execute()] gives for a request, which may depend on
    how many requests were sent before it. *)
Definition Service : Type := nat -> Request -> Result json.

Inductive node : Type :=
  | Dir
  | File (content : string).

Record World : Type := mkWorld {
  fs : gmap string node;      (* path |-> what is there *)
  stdout : list string;       (* one entry per [print] call *)
  requests : list Request     (* the requests executed so far *)
}.

(** ** The monad: state that survives an exception *)

Definition M (A : Type) : Type := World -> Result A * World.

Definition ret {A} (a : A) : M A := fun w => (Ok a, w).

Definition raise {A} (e : exn) : M A := fun w => (Raise e, w).

Definition bind {A B} (m : M A) (k : A -> M B) : M B :=
  fun w =>
    match m w with
    | (Ok a, w') => k a w'
    | (Raise e, w') => (Raise e, w')
    end.

Definition lift {A} (r : Result A) : M A := fun w => (r, w).

Notation "x <- c ;; k" := (bind c (fun x => k))
  (at level 100, c at next level, right associativity).
Notation "c ;;; k" := (bind c (fun _ => k))
  (at level 100, right associativity).

(** [for x in l: body(x)] *)
Fixpoint for_each {A} (l : list A) (body : A -> M unit) : M unit :=
  match l with
  | [] => ret tt
  | x :: rest => body x ;;; for_each rest body
  end.

Definition print (line : string) : M unit :=
  fun w => (Ok tt, mkWorld (fs w) (stdout w ++ [line]) (requests w)).

(** [request.execute()] *)
Definition execute (service : Service) (req : Request) : M json :=
  fun w => (service (length (requests w)) req,
            mkWorld (fs w) (stdout w) (requests w ++ [req])).

(** [os.path.exists(path)]: true for a file and for a directory. *)
Definition os_path_exists (path : string) : M bool :=
  fun w => (Ok (match fs w !! path with Some _ => true | None => false end), w).

(** ** The script *)

(** The command line after [argparse]: [args.project], [args.region],
    [args.verbose]. *)
Record Args : Type := mkArgs {
  project : string;
  region : string;
  verbose : bool
}.

(** A [network_info] dict, in insertion order. *)
Definition NetworkInfo : Type := list (string * json).

Definition output_directory : string := "output".

Section Script.

(** What the script takes from its libraries and from the machine it runs on:
    the credentials lookup and the client builder of the Google libraries,
    [json.dumps(_, indent=2)] (the text [json.dump(_, f, indent=2)] writes),
    whether the operating system lets the process make a directory or write
    a file through to its end in a given filesystem (parent directory,
    permissions, space), and, for a write it does not let through, where it
    stops it: at [open] ([None], nothing is made) or after it, with so many
    characters of the text in the file ([Some n]). *)
Variable Credentials : Type.
Variable google_auth_default : Result Credentials.
Variable discovery_build : Credentials -> Result Service.
Variable json_dumps : json -> string.
Variable os_permits : gmap string node -> string -> bool.
Variable os_leaves : gmap string node -> string -> option nat.

(** [os.makedirs(path)], without [exist_ok]. *)
Definition os_makedirs (path : string) : M unit :=
  fun w =>
    match fs w !! path with
    | Some _ => (Raise (OSError path), w)
    | None =>
        if os_permits (fs w) path
        then (Ok tt, mkWorld (<[path := Dir]> (fs w)) (stdout w) (requests w))
        else (Raise (OSError path), w)
    end.

(** [with open(path, 'w') as f: json.dump(value, f, indent=2)]: mode ['w']
    creates the file or empties it, then the text is written.  A failure at
    [open] leaves the filesystem as it was; a failure after it leaves the
    file with the part of the text that got there. *)
Definition write_json (path : string) (value : json) : M unit :=
  fun w =>
    match fs w !! path with
    | Some Dir => (Raise (OSError path), w)
    | _ =>
        if os_permits (fs w) path
        then (Ok tt, mkWorld (<[path := File (json_dumps value)]> (fs w))
                             (stdout w) (requests w))
        else match os_leaves (fs w) path with
             | None => (Raise (OSError path), w)
             | Some n =>
                 (Raise (OSError path),
                  mkWorld (<[path := File (str_prefix n (json_dumps value))]>
                             (fs w))
                          (stdout w) (requests w))
             end
    end.

(** Lines 9-15. *)
Definition get_authenticated_service : M Service :=
  credentials <- lift google_auth_default ;;
  service <- lift (discovery_build credentials) ;;
  ret service.

(** The loop of lines 22-26, on what is left to visit. *)
Fixpoint check_region_scan (available : list json) (region : string) : M bool :=
  match available with
  | [] => ret false
  | available_region :: rest =>
      name <- lift (py_getitem available_region "name") ;;
      if py_eq_str name region then ret true
      else check_region_scan rest region
  end.

(** Lines 17-26. *)
Definition check_region (service : Service) (project_id region : string) : M bool :=
  available_regions <- execute service (List_ regions project_id None) ;;
  items <- lift (py_getitem available_regions "items") ;;
  available <- lift (py_iter items) ;;
  check_region_scan available region.

(** Lines 29-72. *)
Definition get_network_info (service : Service) (project_id region : string)
  : M NetworkInfo :=
  vpcs <- execute service (List_ networks project_id None) ;;
  subnetworks_ <- execute service (List_ subnetworks project_id (Some region)) ;;
  routes_ <- execute service (List_ routes project_id None) ;;
  interconnects_ <- execute service (List_ interconnects project_id None) ;;
  lan_interfaces <-
    execute service (List_ regionBackendServices project_id (Some region)) ;;
  vpn_gateways <- execute service (List_ vpnGateways project_id (Some region)) ;;
  external_gateways <-
    execute service (List_ externalVpnGateways project_id None) ;;
  vpn_tunnels <- execute service (List_ vpnTunnels project_id (Some region)) ;;
  routers_ <- execute service (List_ routers project_id (Some region)) ;;
  ret [ ("project", JStr project_id);
        ("region", JStr region);
        ("vpcs", vpcs);
        ("subnetworks", subnetworks_);
        ("routes", routes_);
        ("interconnects", interconnects_);
        ("lan_interfaces", lan_interfaces);
        ("vpn_gateways", vpn_gateways);
        ("external_gateways", external_gateways);
        ("vpn_tunnels", vpn_tunnels);
        ("routers", routers_) ].

(** Lines 103-106. *)
Definition main_report (network_info : NetworkInfo) : M unit :=
  for_each network_info (fun item =>
    let '(key, value) := item in
    print (key +:+ ":") ;;;
    print (json_dumps value) ;;;
    print "-----").

(** Line 114. *)
Definition output_file_of (project_id region object_type : string) : string :=
  os_path_join output_directory
    (project_id +:+ "_" +:+ region +:+ "_" +:+ object_type +:+ ".json").

(** Lines 113-119. *)
Definition main_persist (project_id region : string) (network_info : NetworkInfo)
  : M unit :=
  for_each network_info (fun item =>
    let '(object_type, objects) := item in
    let output_file := output_file_of project_id region object_type in
    there <- os_path_exists output_file ;;
    if negb there then write_json output_file objects
    else print ("File " +:+ output_file +:+ " already exists.")).

(** Lines 93-119, the body of the inner loop. *)
Definition main_pair (service : Service) (verbose : bool)
    (project_id region : string) : M unit :=
  valid <- check_region service project_id region ;;
  (if negb valid
   then print ("The region " +:+ region +:+ " is not valid.") ;;;
        raise (SystemExit 1)
   else ret tt) ;;;
  network_info <- get_network_info service project_id region ;;
  (if verbose then main_report network_info else ret tt) ;;;
  there <- os_path_exists output_directory ;;
  (if negb there then os_makedirs output_directory else ret tt) ;;;
  main_persist project_id region network_info.

(** Lines 74-119. *)
Definition main (args : Args) : M unit :=
  let project_ids := str_split "," (project args) in
  let regions := str_split "," (region args) in
  service <- get_authenticated_service ;;
  for_each project_ids (fun project_id =>
    for_each regions (fun region =>
      main_pair service (verbose args) project_id region)).

(** The status the process ends with: 0 when [main] returns, the code of
    [sys.exit], 1 for any other exception that reaches the top. *)
Definition exit_status (r : Result unit) : Z :=
  match r with
  | Ok _ => 0
  | Raise (SystemExit code) => code
  | Raise _ => 1
  end.

End Script.

(** ** A small client and machine to run the script on *)

Module Demo.

Definition dquote : ascii := ascii_of_nat 34.

(** A compact renderer standing in for [json.dumps] in the runs below. *)
Fixpoint render (v : json) : string :=
  match v with
  | JNull => "null"
  | JBool true => "true"
  | JBool false => "false"
  | JNum literal => literal
  | JStr s => String dquote (s +:+ String dquote EmptyString)
  | JArr elements =>
      "[" +:+ fold_right (fun x acc => render x +:+ "," +:+ acc) "]" elements
  | JObj members =>
      "{" +:+ fold_right (fun kv acc =>
                 fst kv +:+ ":" +:+ render (snd kv) +:+ "," +:+ acc) "}" members
  end.

Definition region_list : json :=
  JObj [ ("kind", JStr "compute#regionList");
         ("items", JArr [ JObj [("name", JStr "us-central1")];
                          JObj [("name", JStr "europe-west1")] ]) ].

(** A listing with no region: the API leaves [items] out. *)
Definition empty_region_list : json :=
  JObj [ ("kind", JStr "compute#regionList") ].

Definition no_items : json := JObj [ ("kind", JStr "compute#list") ].

(** Project [demo-proj] has two regions and no resources; project
    [bare-proj] has no region; any other project is unknown. *)
Definition service : Service := fun _ req =>
  if String.eqb (req_project req) "demo-proj" then
    match collection req with
    | regions => Ok region_list
    | _ => Ok no_items
    end
  else if String.eqb (req_project req) "bare-proj" then
    match collection req with
    | regions => Ok empty_region_list
    | _ => Ok no_items
    end
  else Raise (HttpError "notFound").

Definition permit_all : gmap string node -> string -> bool := fun _ _ => true.

Definition leave_nothing : gmap string node -> string -> option nat :=
  fun _ _ => None.

Definition fresh : World := mkWorld ∅ [] [].

Definition run (args : Args) (w : World) : Result unit * World :=
  main unit (Ok tt) (fun _ => Ok service) render permit_all leave_nothing args w.

Definition args_ok : Args := mkArgs "demo-proj" "us-central1" true.
Definition args_quiet : Args := mkArgs "demo-proj" "us-central1" false.
Definition args_moon : Args := mkArgs "demo-proj" "moon-base1" false.

End Demo.

(** ** The vocabulary of the properties *)

(** The [name] of one entry of a listing. *)
Definition entry_name (entry : json) : option json :=
  match entry with
  | JObj members => assoc "name" members
  | _ => None
  end.

Fixpoint entry_names (entries : list json) : option (list json) :=
  match entries with
  | [] => Some []
  | entry :: rest =>
      match entry_name entry, entry_names rest with
      | Some name, Some names => Some (name :: names)
      | _, _ => None
      end
  end.

(** The names a [regions().list] response page lists: the response is an
    object whose [items] is an array of objects that each carry a [name]. *)
Definition region_names (response : json) : option (list json) :=
  match response with
  | JObj members =>
      match assoc "items" members with
      | Some (JArr entries) => entry_names entries
      | _ => None
      end
  | _ => None
  end.

(** The first pair the two loops of [main] reach. *)
Definition first_project (args : Args) : string :=
  hd EmptyString (str_split "," (project args)).

Definition first_region (args : Args) : string :=
  hd EmptyString (str_split "," (region args)).

(** The world once one more request has been executed. *)
Definition after_request (req : Request) (w : World) : World :=
  mkWorld (fs w) (stdout w) (requests w ++ [req]).

(** The keys of the dict literal of lines 58-70, in its order. *)
Definition resource_keys : list string :=
  [ "vpcs"; "subnetworks"; "routes"; "interconnects"; "lan_interfaces";
    "vpn_gateways"; "external_gateways"; "vpn_tunnels"; "routers" ].

Definition network_info_keys : list string :=
  "project" :: "region" :: resource_keys.

(** The requests of lines 31-55, in their order. *)
Definition network_requests (project_id region : string) : list Request :=
  [ List_ networks project_id None;
    List_ subnetworks project_id (Some region);
    List_ routes project_id None;
    List_ interconnects project_id None;
    List_ regionBackendServices project_id (Some region);
    List_ vpnGateways project_id (Some region);
    List_ externalVpnGateways project_id None;
    List_ vpnTunnels project_id (Some region);
    List_ routers project_id (Some region) ].

(** Which collections belong to a project as a whole and which to one of
    its regions. *)
Inductive Scope : Type := Global | Regional.

Definition scope_of (c : Collection) : Scope :=
  match c with
  | regions | networks | routes | interconnects | externalVpnGateways => Global
  | subnetworks | regionBackendServices | vpnGateways | vpnTunnels | routers =>
      Regional
  end.

(** Executing a list of requests one after the other, stopping at the first
    that raises. *)
Fixpoint execute_all (service : Service) (reqs : list Request) : M (list json) :=
  match reqs with
  | [] => ret []
  | req :: rest =>
      v <- execute service req ;;
      vs <- execute_all service rest ;;
      ret (v :: vs)
  end.

(** The record [get_network_info] builds from the nine responses. *)
Definition network_info_of (project_id region : string) (responses : list json)
  : NetworkInfo :=
  ("project", JStr project_id) :: ("region", JStr region)
  :: combine resource_keys responses.

(** A relation between the world before and the world after that every
    step of a computation keeps, however the computation ends. *)
Definition keeps (R : World -> World -> Prop) {A} (m : M A) : Prop :=
  forall w, R w (snd (m w)).

(** How a later world relates to an earlier one: nothing that was in the
    filesystem has changed, and output and requests were only added to. *)
Definition extends (w w' : World) : Prop :=
  fs w ⊆ fs w'
  /\ (exists out, stdout w' = stdout w ++ out)
  /\ (exists reqs, requests w' = requests w ++ reqs).

(** The same, for a computation that only talks to the API. *)
Definition only_requests (w w' : World) : Prop :=
  fs w' = fs w
  /\ stdout w' = stdout w
  /\ (exists reqs, requests w' = requests w ++ reqs).

(** What lines 103-106 print for a record. *)
Definition report_lines (json_dumps : json -> string) (network_info : NetworkInfo)
  : list string :=
  flat_map (fun item => [fst item +:+ ":"; json_dumps (snd item); "-----"])
           network_info.

(** The notice of line 119. *)
Definition exists_notice (output_file : string) : string :=
  "File " +:+ output_file +:+ " already exists.".

(** The world once lines 102-106 have run. *)
Definition after_report (json_dumps : json -> string) (verbose : bool)
    (network_info : NetworkInfo) (w : World) : World :=
  if verbose
  then mkWorld (fs w) (stdout w ++ report_lines json_dumps network_info)
               (requests w)
  else w.

Definition is_file (n : node) : bool :=
  match n with
  | File _ => true
  | Dir => false
  end.

(** The regular files of a filesystem, with their paths. *)
Definition files (m : gmap string node) : list (string * node) :=
  List.filter (fun entry => is_file (snd entry)) (map_to_list m).

(** ** More clients to run the script on *)

Module Cases.

(** A page whose third entry has no [name]. *)
Definition ragged_list : json :=
  JObj [ ("items", JArr [ JObj [("name", JStr "us-central1")];
                          JObj [("name", JStr "europe-west1")];
                          JObj [("description", JStr "unnamed")] ]) ].

Definition ragged_service : Service := fun _ _ => Ok ragged_list.

(** The demo client with the routes of every project forbidden. *)
Definition no_routes_service : Service := fun n req =>
  match collection req with
  | routes => Raise (HttpError "forbidden")
  | _ => Demo.service n req
  end.

(** [demo-proj] twice, then one region that exists and one that does not. *)
Definition args_late_moon : Args :=
  mkArgs "demo-proj" "us-central1,moon-base1" false.

Definition args_two_regions : Args :=
  mkArgs "demo-proj" "us-central1,europe-west1" true.

(** A machine that lets everything be made but the routes file of the demo
    pair. *)
Definition refuse_routes : gmap string node -> string -> bool := fun _ path =>
  negb (String.eqb path "output/demo-proj_us-central1_routes.json").

(** A write that is stopped is stopped after its first five characters. *)
Definition leave_five : gmap string node -> string -> option nat :=
  fun _ _ => Some 5.

End Cases.

(** The pairs the two loops of [main] visit, in their order. *)
Definition pairs_of (args : Args) : list (string * string) :=
  list_prod (str_split "," (project args)) (str_split "," (region args)).

(** The requests one pair costs when nothing fails. *)
Definition pair_requests (pair : string * string) : list Request :=
  List_ regions (fst pair) None :: network_requests (fst pair) (snd pair).

(** Whether something is at a path. *)
Definition path_exists (m : gmap string node) (path : string) : bool :=
  match m !! path with
  | Some _ => true
  | None => false
  end.

(** The two loops of [main] as one loop over the pairs. *)
Definition main_pairs (json_dumps : json -> string)
    (os_permits : gmap string node -> string -> bool)
    (os_leaves : gmap string node -> string -> option nat)
    (service : Service) (verbose : bool) (pairs : list (string * string))
  : M unit :=
  for_each pairs (fun pair =>
    main_pair json_dumps os_permits os_leaves service verbose (fst pair) (snd pair)).

(** Two worlds that differ at most in what is on the console. *)
Definition agree (w w' : World) : Prop :=
  fs w = fs w' /\ requests w = requests w'.

(** Two computations that, from such worlds, end alike and in such worlds. *)
Definition sim {A} (m m' : M A) : Prop :=
  forall w w', agree w w' ->
    fst (m w) = fst (m' w') /\ agree (snd (m w)) (snd (m' w')).

(** A string without the separator of the file names. *)
Fixpoint no_underscore (s : string) : bool :=
  match s with
  | EmptyString => true
  | String c rest => negb (Ascii.eqb c "_") && no_underscore rest
  end.

(** How often a character stands in a string. *)
Fixpoint count_char (c : ascii) (s : string) : nat :=
  match s with
  | EmptyString => 0
  | String c' rest => (if Ascii.eqb c' c then 1 else 0) + count_char c rest
  end.

(** The world a write that is not let through leaves behind. *)
Definition after_failed_write (json_dumps : json -> string)
    (os_leaves : gmap string node -> string -> option nat)
    (path : string) (value : json) (w : World) : World :=
  match os_leaves (fs w) path with
  | None => w
  | Some n =>
      mkWorld (<[path := File (str_prefix n (json_dumps value))]> (fs w))
              (stdout w) (requests w)
  end.

(** * Properties *)

(** ** The monad *)

Lemma bind_ok {A B} (m : M A) (k : A -> M B) w a w' :
  m w = (Ok a, w') -> bind m k w = k a w'.
Proof. intros H. unfold bind. now rewrite H. Qed.

Lemma bind_raise {A B} (m : M A) (k : A -> M B) w e w' :
  m w = (Raise e, w') -> bind m k w = (Raise e, w').
Proof. intros H. unfold bind. now rewrite H. Qed.

Lemma bind_assoc {A B C} (m : M A) (k : A -> M B) (h : B -> M C) w :
  bind (bind m k) h w = bind m (fun a => bind (k a) h) w.
Proof. unfold bind. destruct (m w) as [[a|e] w1]; reflexivity. Qed.

Lemma bind_inv_ok {A B} (m : M A) (k : A -> M B) w b w' :
  bind m k w = (Ok b, w') ->
  exists a w1, m w = (Ok a, w1) /\ k a w1 = (Ok b, w').
Proof.
  unfold bind. destruct (m w) as [[a|e] w1]; intros H; [eauto | discriminate].
Qed.

Lemma bind_execute {B} service req (k : json -> M B) w :
  bind (execute service req) k w
  = match service (length (requests w)) req with
    | Ok v => k v (after_request req w)
    | Raise e => (Raise e, after_request req w)
    end.
Proof. unfold bind, execute. now destruct (service _ req). Qed.

Lemma for_each_app {A} (l1 l2 : list A) (body : A -> M unit) w :
  for_each (l1 ++ l2) body w = bind (for_each l1 body) (fun _ => for_each l2 body) w.
Proof.
  revert w. induction l1 as [|x l1 IH]; intros w; simpl.
  - reflexivity.
  - unfold bind. destruct (body x w) as [[[]|e] w1]; [|reflexivity].
    rewrite IH. reflexivity.
Qed.

Lemma for_each_map {A B} (f : A -> B) (l : list A) (body : B -> M unit) w :
  for_each (map f l) body w = for_each l (fun x => body (f x)) w.
Proof.
  revert w. induction l as [|x l IH]; intros w; simpl; [reflexivity|].
  unfold bind. destruct (body (f x) w) as [[[]|e] w1]; [apply IH | reflexivity].
Qed.

Lemma for_each_list_prod {A B} (l1 : list A) (l2 : list B)
    (f : A -> B -> M unit) w :
  for_each l1 (fun x => for_each l2 (fun y => f x y)) w
  = for_each (list_prod l1 l2) (fun xy => f (fst xy) (snd xy)) w.
Proof.
  revert w. induction l1 as [|x l1 IH]; intros w; [reflexivity|].
  cbn [for_each list_prod]. rewrite for_each_app. unfold bind.
  rewrite for_each_map. cbn [fst snd].
  destruct (for_each l2 (fun y => f x y) w) as [[[]|e] w1]; [apply IH | reflexivity].
Qed.

Section Keeps.
Variable R : World -> World -> Prop.
Hypothesis R_refl : forall w, R w w.
Hypothesis R_trans : forall w1 w2 w3, R w1 w2 -> R w2 w3 -> R w1 w3.

Lemma keeps_ret {A} (a : A) : keeps R (ret a).
Proof. intros w. apply R_refl. Qed.

Lemma keeps_raise {A} e : keeps R (@raise A e).
Proof. intros w. apply R_refl. Qed.

Lemma keeps_lift {A} (r : Result A) : keeps R (lift r).
Proof. intros w. apply R_refl. Qed.

Lemma keeps_bind {A B} (m : M A) (k : A -> M B) :
  keeps R m -> (forall a, keeps R (k a)) -> keeps R (bind m k).
Proof.
  intros Hm Hk w. unfold bind. specialize (Hm w).
  destruct (m w) as [[a|e] w1]; simpl in *; [|exact Hm].
  eapply R_trans; [exact Hm | apply Hk].
Qed.

Lemma keeps_for_each {A} (l : list A) (body : A -> M unit) :
  (forall x, keeps R (body x)) -> keeps R (for_each l body).
Proof.
  intros Hb. induction l as [|x l IH]; simpl.
  - apply keeps_ret.
  - apply keeps_bind; [apply Hb | intros _; exact IH].
Qed.

Lemma keeps_if {A} (b : bool) (m1 m2 : M A) :
  keeps R m1 -> keeps R m2 -> keeps R (if b then m1 else m2).
Proof. destruct b; trivial. Qed.
End Keeps.

(** ** Strings *)

Lemma str_split_nonempty sep s : str_split sep s <> [].
Proof.
  destruct s as [|c s]; simpl; [discriminate|].
  destruct (Ascii.eqb c sep); [discriminate|].
  destruct (str_split sep s); discriminate.
Qed.

Lemma str_split_hd sep s :
  exists pieces, str_split sep s = hd EmptyString (str_split sep s) :: pieces.
Proof.
  pose proof (str_split_nonempty sep s) as H.
  destruct (str_split sep s) as [|piece pieces]; [contradiction|].
  exists pieces. reflexivity.
Qed.

Lemma str_join_split sep s : str_join sep (str_split sep s) = s.
Proof.
  induction s as [|c s IH]; simpl; [reflexivity|].
  destruct (Ascii.eqb_spec c sep) as [->|Hne].
  - pose proof (str_split_nonempty sep s) as Hn.
    destruct (str_split sep s) as [|piece pieces] eqn:E; [contradiction|].
    simpl. simpl in IH. now rewrite IH.
  - pose proof (str_split_nonempty sep s) as Hn.
    destruct (str_split sep s) as [|piece pieces] eqn:E; [contradiction|].
    destruct pieces as [|piece' pieces]; [simpl in *; now rewrite IH|].
    change (String c (str_join sep (piece :: piece' :: pieces)) = String c s).
    now rewrite IH.
Qed.

Lemma str_split_tl_app sep u w :
  In EmptyString (tl (str_split sep w)) ->
  In EmptyString (tl (str_split sep (u +:+ w))).
Proof.
  intros H. induction u as [|c u IH]; simpl; [exact H|].
  destruct (Ascii.eqb c sep).
  - simpl. pose proof (str_split_nonempty sep (u +:+ w)) as Hn.
    destruct (str_split sep (u +:+ w)); [contradiction|]. now right.
  - pose proof (str_split_nonempty sep (u +:+ w)) as Hn.
    destruct (str_split sep (u +:+ w)); [contradiction|]. exact IH.
Qed.

Lemma str_split_consecutive sep u v :
  In EmptyString (str_split sep (u +:+ String sep (String sep v))).
Proof.
  assert (H : In EmptyString (tl (str_split sep (u +:+ String sep (String sep v))))).
  { apply str_split_tl_app. simpl. rewrite Ascii.eqb_refl. now left. }
  destruct (str_split sep _); [contradiction | now right].
Qed.

Lemma str_split_trailing sep u :
  In EmptyString (str_split sep (u +:+ String sep EmptyString)).
Proof.
  assert (H : In EmptyString (tl (str_split sep (u +:+ String sep EmptyString)))).
  { apply str_split_tl_app. simpl. rewrite Ascii.eqb_refl. now left. }
  destruct (str_split sep _); [contradiction | now right].
Qed.

Lemma string_length_app s t :
  String.length (s +:+ t) = String.length s + String.length t.
Proof. induction s as [|c s IH]; simpl; [reflexivity | now rewrite IH]. Qed.

Lemma string_app_cancel_r s1 s2 t : s1 +:+ t = s2 +:+ t -> s1 = s2.
Proof.
  revert s2. induction s1 as [|c s1 IH]; intros [|c' s2] H; simpl in H.
  - reflexivity.
  - apply (f_equal String.length) in H.
    rewrite !string_length_app in H. simpl in H. lia.
  - apply (f_equal String.length) in H.
    rewrite !string_length_app in H. simpl in H. lia.
  - injection H as -> H. f_equal. now apply IH.
Qed.

Lemma startswith_slash_app p s :
  startswith_slash (p +:+ String "_" s) = startswith_slash p.
Proof. destruct p; reflexivity. Qed.

Lemma output_file_of_cases p r key :
  (startswith_slash p = true
   /\ output_file_of p r key
      = p +:+ "_" +:+ r +:+ "_" +:+ key +:+ ".json")
  \/ (startswith_slash p = false
      /\ output_file_of p r key
         = "output/" +:+ p +:+ "_" +:+ r +:+ "_" +:+ key +:+ ".json").
Proof.
  unfold output_file_of, os_path_join.
  change (p +:+ "_" +:+ r +:+ "_" +:+ key +:+ ".json")
    with (p +:+ String "_" (r +:+ "_" +:+ key +:+ ".json")).
  rewrite startswith_slash_app.
  destruct (startswith_slash p); [left | right]; split; reflexivity.
Qed.

Lemma output_file_of_inj p r key1 key2 :
  output_file_of p r key1 = output_file_of p r key2 -> key1 = key2.
Proof.
  intros H.
  destruct (output_file_of_cases p r key1) as [[E1 H1]|[E1 H1]],
           (output_file_of_cases p r key2) as [[E2 H2]|[E2 H2]];
    try congruence; rewrite H1, H2 in H.
  - do 4 apply String.app_inj in H. now apply string_app_cancel_r in H.
  - do 5 apply String.app_inj in H. now apply string_app_cancel_r in H.
Qed.

Lemma output_file_of_not_directory p r key :
  output_file_of p r key <> output_directory.
Proof.
  destruct (output_file_of_cases p r key) as [[E ->]|[E ->]].
  - destruct p as [|c p]; [discriminate|]. simpl in E.
    apply Ascii.eqb_eq in E as ->. discriminate.
  - intros H. apply (f_equal String.length) in H.
    rewrite string_length_app in H. simpl in H. lia.
Qed.

Lemma assoc_list_functional {A} (l : list (string * A)) key v1 v2 :
  List.NoDup (map fst l) -> In (key, v1) l -> In (key, v2) l -> v1 = v2.
Proof.
  induction l as [|[k v] l IH]; intros Hnd H1 H2; [contradiction|].
  simpl in Hnd. inversion Hnd as [|? ? Hnotin Hnd']; subst.
  destruct H1 as [H1|H1], H2 as [H2|H2].
  - congruence.
  - injection H1 as -> ->. exfalso. apply Hnotin.
    change key with (fst (key, v2)). now apply in_map.
  - injection H2 as -> ->. exfalso. apply Hnotin.
    change key with (fst (key, v1)). now apply in_map.
  - now apply IH.
Qed.

Lemma network_info_keys_NoDup : List.NoDup network_info_keys.
Proof. apply NoDup_ListNoDup, (bool_decide_unpack _). vm_compute. exact I. Qed.

(** ** Region validation *)

Lemma existsb_py_eq_str r names :
  existsb (fun name => py_eq_str name r) names = true <-> In (JStr r) names.
Proof.
  rewrite existsb_exists. split.
  - intros (name & Hin & Heq). destruct name; simpl in Heq; try discriminate.
    apply String.eqb_eq in Heq. now subst.
  - intros Hin. exists (JStr r). split; [exact Hin|]. simpl. apply String.eqb_refl.
Qed.

Lemma check_region_scan_names available names r w :
  entry_names available = Some names ->
  check_region_scan available r w
  = (Ok (existsb (fun name => py_eq_str name r) names), w).
Proof.
  revert names. induction available as [|entry rest IH]; intros names H; simpl in *.
  - injection H as <-. reflexivity.
  - destruct entry as [| | | | |members]; simpl in H; try discriminate.
    destruct (assoc "name" members) as [name|] eqn:En; [|discriminate].
    destruct (entry_names rest) as [names'|]; [|discriminate].
    injection H as <-. unfold bind, lift. simpl. rewrite En.
    destruct (py_eq_str name r); simpl; [reflexivity|].
    now apply IH.
Qed.

Lemma check_region_listing service p r w response names :
  service (length (requests w)) (List_ regions p None) = Ok response ->
  region_names response = Some names ->
  check_region service p r w
  = (Ok (existsb (fun name => py_eq_str name r) names),
     after_request (List_ regions p None) w).
Proof.
  intros Hs Hn. unfold check_region, bind, execute, lift. rewrite Hs.
  destruct response as [| | | | |members]; simpl in Hn; try discriminate.
  simpl. destruct (assoc "items" members) as [[| | | |entries|]|]; try discriminate.
  simpl. now apply check_region_scan_names.
Qed.

Lemma check_region_no_items service p r w members :
  service (length (requests w)) (List_ regions p None) = Ok (JObj members) ->
  assoc "items" members = None ->
  check_region service p r w
  = (Raise (KeyError "items"), after_request (List_ regions p None) w).
Proof.
  intros Hs Hn. unfold check_region, bind, execute, lift. rewrite Hs.
  simpl. rewrite Hn. reflexivity.
Qed.

Lemma py_eq_str_true name r : py_eq_str name r = true -> name = JStr r.
Proof.
  destruct name; simpl; try discriminate.
  intros H. apply String.eqb_eq in H. now subst.
Qed.

Lemma check_region_scan_true available r w w' :
  check_region_scan available r w = (Ok true, w') ->
  exists entry, In entry available /\ py_getitem entry "name" = Ok (JStr r).
Proof.
  induction available as [|entry rest IH]; simpl; [discriminate|].
  unfold bind, lift. destruct (py_getitem entry "name") as [name|e] eqn:En;
    [|discriminate].
  destruct (py_eq_str name r) eqn:Eq.
  - intros _. exists entry. apply py_eq_str_true in Eq as ->. auto.
  - intros H. destruct (IH H) as (entry' & Hin & Hn). eauto.
Qed.

Lemma check_region_true_inv service p r w w' :
  check_region service p r w = (Ok true, w') ->
  exists response items available entry,
    service (length (requests w)) (List_ regions p None) = Ok response
    /\ py_getitem response "items" = Ok items
    /\ py_iter items = Ok available
    /\ In entry available
    /\ py_getitem entry "name" = Ok (JStr r).
Proof.
  unfold check_region. rewrite bind_execute.
  destruct (service _ _) as [response|e]; [|discriminate].
  unfold bind at 1, lift at 1.
  destruct (py_getitem response "items") as [items|e] eqn:Ei; [|discriminate].
  unfold bind at 1, lift at 1.
  destruct (py_iter items) as [available|e] eqn:Ea; [|discriminate].
  intros H. destruct (check_region_scan_true _ _ _ _ H) as (entry & Hin & Hn).
  exists response, items, available, entry. auto.
Qed.

(** C6 (as amended): on a response page that is a region listing (an
    [items] list whose entries carry a [name]), [check_region] makes the one
    listing request and returns a boolean, which is true exactly when the
    requested region is the name of one of the listed entries; and whatever
    the response, it returns [True] only when the scan met an entry of the
    page whose name is the requested region. *)
Theorem check_region_true_iff_listed service p r w :
  (forall response names,
      service (length (requests w)) (List_ regions p None) = Ok response ->
      region_names response = Some names ->
      exists b : bool,
        check_region service p r w
        = (Ok b, after_request (List_ regions p None) w)
        /\ (b = true <-> In (JStr r) names))
  /\ (forall w',
        check_region service p r w = (Ok true, w') ->
        exists response items available entry,
          service (length (requests w)) (List_ regions p None) = Ok response
          /\ py_getitem response "items" = Ok items
          /\ py_iter items = Ok available
          /\ In entry available
          /\ py_getitem entry "name" = Ok (JStr r)).
Proof.
  split.
  - intros response names Hs Hn.
    exists (existsb (fun name => py_eq_str name r) names). split.
    + now apply check_region_listing with (response := response).
    + apply existsb_py_eq_str.
  - apply check_region_true_inv.
Qed.

Lemma check_region_true_iff_listed_witness :
  exists b : bool,
    check_region Demo.service "demo-proj" "us-central1" Demo.fresh
    = (Ok b, after_request (List_ regions "demo-proj" None) Demo.fresh)
    /\ (b = true
        <-> In (JStr "us-central1") [JStr "us-central1"; JStr "europe-west1"]).
Proof.
  destruct (check_region_true_iff_listed Demo.service "demo-proj" "us-central1"
              Demo.fresh) as (Hlisted & _).
  apply (Hlisted Demo.region_list); reflexivity.
Defined.

(** C8: a listing response without the [items] key makes [check_region]
    raise [KeyError] where one might expect [False]; the boolean of C6 is
    there only for a response that has [items]. *)
Theorem check_region_raises_without_items service p r w members :
  service (length (requests w)) (List_ regions p None) = Ok (JObj members) ->
  assoc "items" members = None ->
  check_region service p r w
  = (Raise (KeyError "items"), after_request (List_ regions p None) w)
  /\ (forall b w', check_region service p r w <> (Ok b, w')).
Proof.
  intros Hs Hn. rewrite (check_region_no_items _ _ _ _ _ Hs Hn).
  split; [reflexivity | discriminate].
Qed.

Lemma check_region_raises_without_items_witness :
  check_region Demo.service "bare-proj" "us-central1" Demo.fresh
  = (Raise (KeyError "items"),
     after_request (List_ regions "bare-proj" None) Demo.fresh)
  /\ (forall b w',
        check_region Demo.service "bare-proj" "us-central1" Demo.fresh
        <> (Ok b, w')).
Proof.
  apply (check_region_raises_without_items Demo.service "bare-proj"
           "us-central1" Demo.fresh [("kind", JStr "compute#regionList")]);
    reflexivity.
Defined.

(** ** Resource collection *)

Lemma execute_all_ok service reqs w vs w' :
  execute_all service reqs w = (Ok vs, w') ->
  length vs = length reqs
  /\ w' = mkWorld (fs w) (stdout w) (requests w ++ reqs)
  /\ (forall i req, reqs !! i = Some req ->
        Some (service (length (requests w) + i) req) = Ok <$> vs !! i).
Proof.
  revert w vs w'. induction reqs as [|req rest IH]; intros w vs w' H;
    cbn [execute_all] in H.
  - injection H as <- <-. rewrite app_nil_r. destruct w.
    repeat split. intros i req Hi. destruct i; discriminate.
  - rewrite bind_execute in H.
    destruct (service (length (requests w)) req) as [v|e] eqn:Ev; [|discriminate].
    apply bind_inv_ok in H as (vs' & w1 & H1 & H2).
    injection H2 as <- <-.
    apply IH in H1 as (Hl & -> & Hi). simpl.
    split; [now rewrite Hl|]. split; [now rewrite <- app_assoc|].
    intros [|i] req' Hq; simpl in *.
    + injection Hq as <-. rewrite Nat.add_0_r, Ev. reflexivity.
    + rewrite <- (Hi i req' Hq). rewrite length_app. simpl.
      do 2 f_equal. lia.
Qed.

Lemma execute_all_trace service reqs w :
  exists k, k <= length reqs
  /\ snd (execute_all service reqs w)
     = mkWorld (fs w) (stdout w) (requests w ++ take k reqs).
Proof.
  revert w. induction reqs as [|req rest IH]; intros w; cbn [execute_all].
  - exists 0. split; [lia|]. simpl. rewrite app_nil_r. now destruct w.
  - rewrite bind_execute.
    destruct (service (length (requests w)) req) as [v|e].
    + destruct (IH (after_request req w)) as (k & Hk & Ht).
      exists (S k). split; [simpl; lia|].
      unfold bind. destruct (execute_all service rest _) as [[vs|e] w1];
        simpl in *; subst w1; now rewrite <- app_assoc.
    + exists 1. split; [simpl; lia|]. reflexivity.
Qed.

Lemma execute_all_total service reqs w :
  (forall n req, In req reqs -> exists v, service n req = Ok v) ->
  exists vs w', execute_all service reqs w = (Ok vs, w').
Proof.
  revert w. induction reqs as [|req rest IH]; intros w H; cbn [execute_all].
  - unfold ret. eauto.
  - destruct (H (length (requests w)) req) as [v Hv]; [now left|].
    rewrite bind_execute, Hv.
    destruct (IH (after_request req w)) as (vs & w' & Hr);
      [intros n q Hq; apply H; now right|].
    unfold bind. rewrite Hr. unfold ret. eauto.
Qed.

(** [get_network_info] is its nine requests followed by the dict literal. *)
Lemma get_network_info_unfold service p r w :
  get_network_info service p r w
  = bind (execute_all service (network_requests p r))
         (fun vs => ret (network_info_of p r vs)) w.
Proof.
  unfold get_network_info, network_requests, execute_all, bind, execute, ret.
  repeat match goal with
         | |- context [match ?s ?n ?q with Ok _ => _ | Raise _ => _ end] =>
             destruct (s n q)
         | |- (let (_, _) := match ?s ?n ?q with Ok _ => _ | Raise _ => _ end
               in _) = _ => destruct (s n q)
         end; reflexivity.
Qed.

Lemma network_info_of_keys p r vs :
  length vs = length resource_keys ->
  map fst (network_info_of p r vs) = network_info_keys.
Proof.
  intros H. unfold network_info_of, network_info_keys. simpl. do 2 f_equal.
  do 10 (destruct vs as [|? vs]; try discriminate). reflexivity.
Qed.

Lemma get_network_info_keys service p r w info w' :
  get_network_info service p r w = (Ok info, w') ->
  map fst info = network_info_keys.
Proof.
  intros H. rewrite get_network_info_unfold in H.
  apply bind_inv_ok in H as (vs & w1 & H1 & H2).
  apply execute_all_ok in H1 as (Hl & _ & _).
  injection H2 as <- <-. now apply network_info_of_keys.
Qed.

(** C1 (as amended): the record [get_network_info] returns has the same
    eleven keys for every pair, the nine resource keys after [project] and
    [region], each once and in the order of the dict literal; it returns
    such a record whenever its list calls succeed. *)
Theorem network_info_keys_fixed service p r w :
  (forall info w',
      get_network_info service p r w = (Ok info, w') ->
      map fst info = network_info_keys
      /\ assoc "project" info = Some (JStr p)
      /\ assoc "region" info = Some (JStr r))
  /\ ((forall n req, In req (network_requests p r) ->
        exists v, service n req = Ok v) ->
      exists info w', get_network_info service p r w = (Ok info, w'))
  /\ network_info_keys = "project" :: "region" :: resource_keys
  /\ length resource_keys = 9
  /\ NoDup network_info_keys.
Proof.
  split; [|split; [|split; [reflexivity | split; [reflexivity|]]]].
  - intros info w' H. rewrite get_network_info_unfold in H.
    apply bind_inv_ok in H as (vs & w1 & H1 & H2).
    apply execute_all_ok in H1 as (Hl & _ & _).
    injection H2 as <- <-. split; [now apply network_info_of_keys|].
    split; reflexivity.
  - intros Hall.
    destruct (execute_all_total service (network_requests p r) w Hall)
      as (vs & w' & Hr).
    exists (network_info_of p r vs), w'.
    rewrite get_network_info_unfold. now rewrite (bind_ok _ _ _ _ _ Hr).
  - apply (bool_decide_unpack _). vm_compute. exact I.
Qed.

Lemma network_info_keys_fixed_witness :
  exists info w',
    get_network_info Demo.service "demo-proj" "us-central1" Demo.fresh
    = (Ok info, w')
    /\ map fst info = network_info_keys.
Proof.
  destruct (network_info_keys_fixed Demo.service "demo-proj" "us-central1"
              Demo.fresh) as (Hkeys & Hret & _).
  destruct Hret as (info & w' & H).
  - intros n req Hin. simpl in Hin.
    repeat (destruct Hin as [<-|Hin]; [eexists; reflexivity|]). contradiction.
  - exists info, w'. split; [exact H|]. now apply (Hkeys info w').
Defined.

(** C1 as stated fails: the record of the demo project has eleven keys,
    nine of them resource keys, not ten plus two. *)
Lemma network_info_not_ten_resource_keys :
  exists info w',
    get_network_info Demo.service "demo-proj" "us-central1" Demo.fresh
    = (Ok info, w')
    /\ length info = 11
    /\ length (List.filter (fun kv => negb (String.eqb (fst kv) "project")
                                      && negb (String.eqb (fst kv) "region"))
                           info)
       <> 10.
Proof.
  eexists. eexists. split; [vm_compute; reflexivity|].
  split; [reflexivity|]. vm_compute. discriminate.
Qed.

(** C5 (as amended): [get_network_info] executes its nine list requests in
    the order of the source and nothing else; a request for networks, routes,
    interconnects or external VPN gateways names the project alone, a
    request for subnetworks, region backend services, VPN gateways, VPN
    tunnels or routers names the project and the region.  When a request
    raises, the ones after it are not sent. *)
Theorem network_requests_scoped service p r w :
  (exists k, k <= 9
     /\ requests (snd (get_network_info service p r w))
        = requests w ++ take k (network_requests p r))
  /\ (forall info w',
        get_network_info service p r w = (Ok info, w') ->
        requests w' = requests w ++ network_requests p r)
  /\ map collection (network_requests p r)
     = [ networks; subnetworks; routes; interconnects; regionBackendServices;
         vpnGateways; externalVpnGateways; vpnTunnels; routers ]
  /\ (forall req, In req (network_requests p r) ->
        req_project req = p
        /\ req_region req = match scope_of (collection req) with
                            | Global => None
                            | Regional => Some r
                            end).
Proof.
  split; [|split; [|split; [reflexivity|]]].
  - destruct (execute_all_trace service (network_requests p r) w)
      as (k & Hk & Ht).
    exists k. split; [exact Hk|]. rewrite get_network_info_unfold.
    unfold bind, ret.
    destruct (execute_all service (network_requests p r) w) as [[vs|e] w1];
      simpl in *; now subst w1.
  - intros info w' H. rewrite get_network_info_unfold in H.
    apply bind_inv_ok in H as (vs & w1 & H1 & H2).
    apply execute_all_ok in H1 as (_ & -> & _). now injection H2 as <- <-.
  - intros req Hin. simpl in Hin.
    repeat (destruct Hin as [<-|Hin]; [split; reflexivity|]). contradiction.
Qed.

Lemma network_requests_scoped_witness :
  requests (snd (get_network_info Demo.service "demo-proj" "us-central1"
                   Demo.fresh))
  = network_requests "demo-proj" "us-central1".
Proof.
  destruct (network_requests_scoped Demo.service "demo-proj" "us-central1"
              Demo.fresh) as (_ & Hok & _).
  apply (Hok (network_info_of "demo-proj" "us-central1"
                (repeat Demo.no_items 9))).
  vm_compute. reflexivity.
Defined.

(** C5 as stated fails: collecting the demo project's resources takes nine
    requests, not ten. *)
Lemma network_requests_not_ten :
  length (requests (snd (get_network_info Demo.service "demo-proj"
                           "us-central1" Demo.fresh))) = 9
  /\ length (requests (snd (get_network_info Demo.service "demo-proj"
                              "us-central1" Demo.fresh))) <> 10.
Proof. split; [reflexivity | vm_compute; discriminate]. Qed.

(** ** What every step keeps *)

Lemma extends_refl w : extends w w.
Proof.
  repeat split; [reflexivity | exists [] | exists []]; now rewrite app_nil_r.
Qed.

Lemma extends_trans w1 w2 w3 : extends w1 w2 -> extends w2 w3 -> extends w1 w3.
Proof.
  intros (Hf & [o Ho] & [q Hq]) (Hf' & [o' Ho'] & [q' Hq']). repeat split.
  - now transitivity (fs w2).
  - exists (o ++ o'). rewrite Ho', Ho. now rewrite app_assoc.
  - exists (q ++ q'). rewrite Hq', Hq. now rewrite app_assoc.
Qed.

Lemma only_requests_refl w : only_requests w w.
Proof. repeat split. exists []. now rewrite app_nil_r. Qed.

Lemma only_requests_trans w1 w2 w3 :
  only_requests w1 w2 -> only_requests w2 w3 -> only_requests w1 w3.
Proof.
  intros (Hf & Ho & [q Hq]) (Hf' & Ho' & [q' Hq']). repeat split.
  - congruence.
  - congruence.
  - exists (q ++ q'). rewrite Hq', Hq. now rewrite app_assoc.
Qed.

Lemma only_requests_extends w w' : only_requests w w' -> extends w w'.
Proof.
  intros (Hf & Ho & Hq). repeat split.
  - now rewrite Hf.
  - exists []. now rewrite app_nil_r.
  - exact Hq.
Qed.

Lemma keeps_weaken (R R' : World -> World -> Prop) {A} (m : M A) :
  (forall w w', R w w' -> R' w w') -> keeps R m -> keeps R' m.
Proof. intros HR Hm w. apply HR, Hm. Qed.

Lemma execute_only_requests service req : keeps only_requests (execute service req).
Proof. intros w. simpl. repeat split. now exists [req]. Qed.

Lemma check_region_scan_only_requests available r :
  keeps only_requests (check_region_scan available r).
Proof.
  induction available as [|entry rest IH]; simpl.
  - apply keeps_ret, only_requests_refl.
  - apply keeps_bind.
    + apply only_requests_trans.
    + apply keeps_lift, only_requests_refl.
    + intros name. apply keeps_if; [|exact IH].
      apply keeps_ret, only_requests_refl.
Qed.

Lemma check_region_only_requests service p r :
  keeps only_requests (check_region service p r).
Proof.
  unfold check_region.
  repeat (apply keeps_bind;
          [apply only_requests_trans | | intros ?]);
    try apply execute_only_requests;
    try (apply keeps_lift, only_requests_refl).
  apply check_region_scan_only_requests.
Qed.

Lemma execute_all_only_requests service reqs :
  keeps only_requests (execute_all service reqs).
Proof.
  intros w. destruct (execute_all_trace service reqs w) as (k & _ & ->).
  repeat split. simpl. eauto.
Qed.

Lemma get_network_info_only_requests service p r :
  keeps only_requests (get_network_info service p r).
Proof.
  intros w. rewrite get_network_info_unfold. revert w.
  apply keeps_bind.
  - apply only_requests_trans.
  - apply execute_all_only_requests.
  - intros vs. apply keeps_ret, only_requests_refl.
Qed.

Lemma check_region_first_request service p r w :
  requests (snd (check_region service p r w))
  = requests w ++ [List_ regions p None].
Proof.
  unfold check_region. rewrite bind_execute.
  destruct (service _ _) as [v|e]; [|reflexivity].
  assert (K : keeps (fun w w' => requests w' = requests w)
                (items <- lift (py_getitem v "items") ;;
                 available <- lift (py_iter items) ;;
                 check_region_scan available r)).
  { repeat (apply keeps_bind; [congruence | | intros ?]);
      try (apply keeps_lift; reflexivity).
    match goal with |- keeps _ (check_region_scan ?l _) => induction l end; simpl.
    - now apply keeps_ret.
    - apply keeps_bind; [congruence | now apply keeps_lift |].
      intros name. apply keeps_if; [now apply keeps_ret | assumption]. }
  now rewrite K.
Qed.

Section Runs.

Context {Credentials : Type}.
Variable google_auth_default : Result Credentials.
Variable discovery_build : Credentials -> Result Service.
Variable json_dumps : json -> string.
Variable os_permits : gmap string node -> string -> bool.
Variable os_leaves : gmap string node -> string -> option nat.

Local Abbreviation main_persist' := (main_persist json_dumps os_permits os_leaves).
Local Abbreviation main_report' := (main_report json_dumps).
Local Abbreviation main_pair' := (main_pair json_dumps os_permits os_leaves).
Local Abbreviation main' :=
  (main Credentials google_auth_default discovery_build json_dumps os_permits os_leaves).

Lemma get_authenticated_service_ok c service w :
  google_auth_default = Ok c ->
  discovery_build c = Ok service ->
  get_authenticated_service Credentials google_auth_default discovery_build w
  = (Ok service, w).
Proof.
  intros Hc Hb. unfold get_authenticated_service, bind, lift, ret.
  rewrite Hc, Hb. reflexivity.
Qed.

Lemma main_pair_invalid service vb p r w w1 :
  check_region service p r w = (Ok false, w1) ->
  main_pair' service vb p r w
  = (Raise (SystemExit 1),
     mkWorld (fs w1) (stdout w1 ++ ["The region " +:+ r +:+ " is not valid."])
             (requests w1)).
Proof.
  intros H. unfold main_pair. rewrite (bind_ok _ _ _ _ _ H).
  reflexivity.
Qed.

Lemma main_pair_check_raise service vb p r w e w1 :
  check_region service p r w = (Raise e, w1) ->
  main_pair' service vb p r w = (Raise e, w1).
Proof. intros H. unfold main_pair. now rewrite (bind_raise _ _ _ _ _ H). Qed.

Lemma main_first_pair args w c service :
  google_auth_default = Ok c ->
  discovery_build c = Ok service ->
  forall e w',
  main_pair' service (verbose args) (first_project args) (first_region args) w
  = (Raise e, w') ->
  main' args w = (Raise e, w').
Proof.
  intros Hc Hb e w' H. unfold main.
  rewrite (bind_ok _ _ _ _ _ (get_authenticated_service_ok c service w Hc Hb)).
  unfold first_project, first_region in H.
  destruct (str_split_hd "," (project args)) as [ps ->].
  destruct (str_split_hd "," (region args)) as [rs ->].
  simpl. apply bind_raise. apply bind_raise. exact H.
Qed.

(** C3 (as amended): when the listing the client returns for the first
    project is a page of named entries (an [items] list whose entries carry
    a [name]) and none of the names is the first region, [main] prints
    "The region <region> is not valid." and leaves through [sys.exit(1)]: the
    process status is 1, one request (the listing) was made, and the
    filesystem is as it was, for that pair and for every pair queued behind
    it. *)
Theorem invalid_first_region_exits_1 args w c service response names :
  google_auth_default = Ok c ->
  discovery_build c = Ok service ->
  service (length (requests w)) (List_ regions (first_project args) None)
  = Ok response ->
  region_names response = Some names ->
  ~ In (JStr (first_region args)) names ->
  main' args w
  = (Raise (SystemExit 1),
     mkWorld (fs w)
       (stdout w ++ ["The region " +:+ first_region args +:+ " is not valid."])
       (requests w ++ [List_ regions (first_project args) None]))
  /\ exit_status (fst (main' args w)) = 1%Z
  /\ fs (snd (main' args w)) = fs w.
Proof.
  intros Hc Hb Hs Hn Hnot.
  assert (Hm : main' args w
    = (Raise (SystemExit 1),
       mkWorld (fs w)
         (stdout w ++ ["The region " +:+ first_region args +:+ " is not valid."])
         (requests w ++ [List_ regions (first_project args) None]))).
  { eapply main_first_pair; [exact Hc | exact Hb |].
    rewrite (main_pair_invalid service (verbose args) _ _ w
               (after_request (List_ regions (first_project args) None) w));
      [reflexivity|].
    rewrite (check_region_listing _ _ _ _ _ _ Hs Hn). f_equal. f_equal.
    destruct (existsb _ names) eqn:E; [|reflexivity].
    apply existsb_py_eq_str in E. contradiction. }
  rewrite Hm. auto.
Qed.

Lemma main_report_run info w :
  main_report' info w
  = (Ok tt, mkWorld (fs w) (stdout w ++ report_lines json_dumps info) (requests w)).
Proof.
  revert w. induction info as [|[key value] rest IH]; intros w.
  - simpl. unfold ret. rewrite app_nil_r. now destruct w.
  - unfold main_report in *. cbn [for_each]. unfold bind at 1 2 3, print. simpl.
    rewrite IH. simpl. repeat rewrite <- app_assoc. reflexivity.
Qed.

Lemma main_persist_cons_exists p r key value rest w n :
  fs w !! output_file_of p r key = Some n ->
  main_persist' p r ((key, value) :: rest) w
  = main_persist' p r rest
      (mkWorld (fs w) (stdout w ++ [exists_notice (output_file_of p r key)])
               (requests w)).
Proof.
  intros H. unfold main_persist. cbn [for_each].
  unfold bind at 1 2, os_path_exists. rewrite H. reflexivity.
Qed.

Lemma main_persist_cons_new p r key value rest w :
  fs w !! output_file_of p r key = None ->
  os_permits (fs w) (output_file_of p r key) = true ->
  main_persist' p r ((key, value) :: rest) w
  = main_persist' p r rest
      (mkWorld (<[output_file_of p r key := File (json_dumps value)]> (fs w))
               (stdout w) (requests w)).
Proof.
  intros H Hp. unfold main_persist. cbn [for_each].
  unfold bind at 1 2, os_path_exists, write_json. rewrite H. simpl.
  rewrite H, Hp. reflexivity.
Qed.

Lemma main_persist_cons_refused p r key value rest w :
  fs w !! output_file_of p r key = None ->
  os_permits (fs w) (output_file_of p r key) = false ->
  main_persist' p r ((key, value) :: rest) w
  = (Raise (OSError (output_file_of p r key)),
     after_failed_write json_dumps os_leaves (output_file_of p r key) value w).
Proof.
  intros H Hp. unfold main_persist, after_failed_write. cbn [for_each].
  unfold bind at 1 2, os_path_exists, write_json. rewrite H. simpl.
  rewrite H, Hp. now destruct (os_leaves (fs w) (output_file_of p r key)).
Qed.

(** All that the loop of lines 113-119 can do to a world. *)
Lemma main_persist_spec p r info w :
  forall res w', main_persist' p r info w = (res, w') ->
  fs w ⊆ fs w'
  /\ requests w' = requests w
  /\ (exists notices,
        stdout w' = stdout w ++ notices
        /\ Forall (fun line => exists key,
                     In key (map fst info)
                     /\ line = exists_notice (output_file_of p r key)) notices)
  /\ (forall path, fs w' !! path <> fs w !! path ->
        exists key value content,
          In (key, value) info /\ path = output_file_of p r key
          /\ fs w !! path = None
          /\ fs w' !! path = Some (File content)
          /\ (res = Ok tt -> content = json_dumps value))
  /\ (res = Ok tt ->
      forall key, In key (map fst info) ->
                  is_Some (fs w' !! output_file_of p r key)).
Proof.
  revert w. induction info as [|[key value] rest IH]; intros w res w' H.
  - injection H as <- <-. repeat split; try reflexivity.
    + exists []. split; [now rewrite app_nil_r | constructor].
    + intros path Hne. contradiction.
    + intros _ key [].
  - destruct (fs w !! output_file_of p r key) as [n|] eqn:E.
    + rewrite (main_persist_cons_exists _ _ _ _ _ _ _ E) in H.
      apply IH in H as (Hf & Hq & (notices & Ho & Hn) & Hch & Hok).
      simpl in *. repeat split.
      * exact Hf.
      * exact Hq.
      * exists (exists_notice (output_file_of p r key) :: notices).
        split; [now rewrite Ho, <- app_assoc|].
        constructor; [exists key; auto|].
        eapply Forall_impl; [exact Hn|]. intros line (k & Hk & ->). eauto.
      * intros path Hne. destruct (Hch path Hne) as (k & v & c & Hin & R).
        exists k, v, c. auto.
      * intros Hres k [<-|Hk]; [|now apply Hok].
        exists n. eapply lookup_weaken; eauto.
    + destruct (os_permits (fs w) (output_file_of p r key)) eqn:Ep.
      * rewrite (main_persist_cons_new _ _ _ _ _ _ E Ep) in H.
        apply IH in H as (Hf & Hq & (notices & Ho & Hn) & Hch & Hok).
        simpl in *.
        assert (Hnew : fs w' !! output_file_of p r key
                       = Some (File (json_dumps value))).
        { eapply lookup_weaken; [|exact Hf]. apply lookup_insert_eq. }
        repeat split.
        -- etransitivity; [|exact Hf]. now apply insert_subseteq.
        -- exact Hq.
        -- exists notices. split; [exact Ho|].
           eapply Forall_impl; [exact Hn|]. intros line (k & Hk & ->). eauto.
        -- intros path Hne.
           destruct (decide (path = output_file_of p r key)) as [->|Hp].
           ++ exists key, value, (json_dumps value). auto.
           ++ destruct (Hch path) as (k & v & c & Hin & -> & Hnone & Hsome).
              { now rewrite lookup_insert_ne. }
              exists k, v, c.
              rewrite lookup_insert_ne in Hnone by congruence. auto.
        -- intros Hres k [<-|Hk]; [eauto | now apply Hok].
      * rewrite (main_persist_cons_refused _ _ _ _ _ _ E Ep) in H.
        injection H as <- <-. unfold after_failed_write.
        destruct (os_leaves (fs w) (output_file_of p r key)) as [n|];
          simpl; repeat split; try reflexivity; try discriminate.
        -- now apply insert_subseteq.
        -- exists []. split; [now rewrite app_nil_r | constructor].
        -- intros path Hne.
           destruct (decide (path = output_file_of p r key)) as [->|Hp].
           ++ exists key, value, (str_prefix n (json_dumps value)).
              rewrite lookup_insert_eq. repeat split; auto. discriminate.
           ++ rewrite lookup_insert_ne in Hne by congruence. contradiction.
        -- exists []. split; [now rewrite app_nil_r | constructor].
        -- intros path Hne. contradiction.
Qed.

(** When every file of the record is there already, the loop prints one
    notice per key and writes nothing. *)
Lemma main_persist_all_exist p r info w :
  (forall key, In key (map fst info) ->
               is_Some (fs w !! output_file_of p r key)) ->
  main_persist' p r info w
  = (Ok tt,
     mkWorld (fs w)
       (stdout w
        ++ map (fun item => exists_notice (output_file_of p r (fst item))) info)
       (requests w)).
Proof.
  revert w. induction info as [|[key value] rest IH]; intros w H.
  - simpl. unfold ret. rewrite app_nil_r. now destruct w.
  - destruct (H key) as [n Hn]; [now left|].
    rewrite (main_persist_cons_exists _ _ _ _ _ _ _ Hn).
    rewrite IH; [|intros k Hk; apply H; now right].
    simpl. now rewrite <- app_assoc.
Qed.

(** [main_pair] once validation and collection have succeeded. *)
Lemma main_pair_valid service vb p r w w1 info w2 :
  check_region service p r w = (Ok true, w1) ->
  get_network_info service p r w1 = (Ok info, w2) ->
  main_pair' service vb p r w
  = let w3 := after_report json_dumps vb info w2 in
    match fs w3 !! output_directory with
    | Some _ => main_persist' p r info w3
    | None =>
        if os_permits (fs w3) output_directory
        then main_persist' p r info
               (mkWorld (<[output_directory := Dir]> (fs w3)) (stdout w3)
                        (requests w3))
        else (Raise (OSError output_directory), w3)
    end.
Proof.
  intros Hc Hg. unfold main_pair.
  rewrite (bind_ok _ _ _ _ _ Hc). cbn [negb]. unfold bind at 1, ret at 1.
  rewrite (bind_ok _ _ _ _ _ Hg).
  assert (Hr : (if vb then main_report' info else ret tt) w2
               = (Ok tt, after_report json_dumps vb info w2)).
  { destruct vb; [apply main_report_run | reflexivity]. }
  rewrite (bind_ok _ _ _ _ _ Hr). cbv zeta.
  set (w3 := after_report json_dumps vb info w2).
  unfold bind at 1, os_path_exists at 1.
  destruct (fs w3 !! output_directory) as [n|] eqn:E; cbn [negb].
  - reflexivity.
  - unfold bind at 1, os_makedirs. rewrite E.
    destruct (os_permits (fs w3) output_directory); reflexivity.
Qed.

Lemma main_pair_get_raise service vb p r w w1 e w2 :
  check_region service p r w = (Ok true, w1) ->
  get_network_info service p r w1 = (Raise e, w2) ->
  main_pair' service vb p r w = (Raise e, w2).
Proof.
  intros Hc Hg. unfold main_pair.
  rewrite (bind_ok _ _ _ _ _ Hc). cbn [negb]. unfold bind at 1, ret at 1.
  now rewrite (bind_raise _ _ _ _ _ Hg).
Qed.

Lemma fs_after_report vb info w : fs (after_report json_dumps vb info w) = fs w.
Proof. now destruct vb. Qed.

Lemma requests_after_report vb info w :
  requests (after_report json_dumps vb info w) = requests w.
Proof. now destruct vb. Qed.

Lemma main_pair_ok_inv service vb p r w w' :
  main_pair' service vb p r w = (Ok tt, w') ->
  exists w1 info w2,
    check_region service p r w = (Ok true, w1)
    /\ get_network_info service p r w1 = (Ok info, w2).
Proof.
  intros H. destruct (check_region service p r w) as [[[|]|e] w1] eqn:Hc.
  - destruct (get_network_info service p r w1) as [[info|e] w2] eqn:Hg.
    + eauto.
    + rewrite (main_pair_get_raise _ _ _ _ _ _ _ _ Hc Hg) in H. discriminate.
  - rewrite (main_pair_invalid _ _ _ _ _ _ Hc) in H. discriminate.
  - rewrite (main_pair_check_raise _ _ _ _ _ _ _ Hc) in H. discriminate.
Qed.

Lemma collected_same_fs service p r w w1 info w2 :
  check_region service p r w = (Ok true, w1) ->
  get_network_info service p r w1 = (Ok info, w2) ->
  fs w2 = fs w /\ stdout w2 = stdout w
  /\ requests w2 = requests w ++ List_ regions p None :: network_requests p r.
Proof.
  intros Hc Hg.
  pose proof (check_region_only_requests service p r w) as (F1 & O1 & _).
  pose proof (check_region_first_request service p r w) as Q1.
  rewrite Hc in F1, O1, Q1. simpl in F1, O1, Q1.
  pose proof (get_network_info_only_requests service p r w1) as (F2 & O2 & _).
  rewrite Hg in F2, O2. simpl in F2, O2.
  rewrite get_network_info_unfold in Hg.
  apply bind_inv_ok in Hg as (vs & w1' & H1 & H2).
  apply execute_all_ok in H1 as (_ & -> & _). injection H2 as _ <-. simpl in *.
  repeat split; try congruence. rewrite Q1. now rewrite <- app_assoc.
Qed.

(** C2 (as amended): a pair that [main] processes to the end has, for each
    of the eleven keys of the record [get_network_info] returned for it,
    [project] and [region] included, a file at
    [os.path.join(output, <project>_<region>_<key>.json)], which is
    [output/<project>_<region>_<key>.json] unless the project starts with a
    slash; the eleven paths are distinct; each of them that was not there
    before was written with the JSON text of the value the record has under
    that key; and nothing else changed in the filesystem but, possibly, the
    output directory. *)
Theorem pair_writes_eleven_files service vb p r w w' :
  main_pair' service vb p r w = (Ok tt, w') ->
  exists w1 info w2,
    check_region service p r w = (Ok true, w1)
    /\ get_network_info service p r w1 = (Ok info, w2)
    /\ map fst info = network_info_keys
    /\ length info = 11
    /\ (forall key value, In (key, value) info ->
          is_Some (fs w' !! output_file_of p r key)
          /\ (fs w !! output_file_of p r key = None ->
              fs w' !! output_file_of p r key = Some (File (json_dumps value))))
    /\ (forall path, fs w' !! path <> fs w !! path ->
          path = output_directory
          \/ exists key, In key network_info_keys
                         /\ path = output_file_of p r key
                         /\ fs w !! path = None)
    /\ List.NoDup (map (output_file_of p r) network_info_keys)
    /\ (startswith_slash p = false ->
        forall key,
          output_file_of p r key
          = "output/" +:+ p +:+ "_" +:+ r +:+ "_" +:+ key +:+ ".json").
Proof.
  intros H.
  destruct (main_pair_ok_inv _ _ _ _ _ _ H) as (w1 & info & w2 & Hc & Hg).
  destruct (collected_same_fs _ _ _ _ _ _ _ Hc Hg) as (F2 & _ & _).
  pose proof (get_network_info_keys _ _ _ _ _ _ Hg) as Hk.
  rewrite (main_pair_valid _ vb _ _ _ _ _ _ Hc Hg) in H. cbv zeta in H.
  pose proof (fs_after_report vb info w2) as F3.
  set (w3 := after_report json_dumps vb info w2) in *.
  assert (Hnd : List.NoDup (map fst info))
    by (rewrite Hk; apply network_info_keys_NoDup).
  assert (Hmain : forall ws, main_persist' p r info ws = (Ok tt, w') ->
            (forall path, path <> output_directory ->
                          fs ws !! path = fs w !! path) ->
            (forall key value, In (key, value) info ->
               is_Some (fs w' !! output_file_of p r key)
               /\ (fs w !! output_file_of p r key = None ->
                   fs w' !! output_file_of p r key
                   = Some (File (json_dumps value))))
            /\ (forall path, fs w' !! path <> fs w !! path ->
                  path = output_directory
                  \/ exists key, In key network_info_keys
                                 /\ path = output_file_of p r key
                                 /\ fs w !! path = None)).
  { intros ws Hp Hsame.
    apply main_persist_spec in Hp as (_ & _ & _ & Hch & Hok). split.
    - intros key value Hin.
      assert (Hkin : In key (map fst info))
        by (change key with (fst (key, value)); now apply in_map).
      destruct (Hok eq_refl key Hkin) as [n Hn].
      split; [now exists n|]. intros Hnone.
      destruct (Hch (output_file_of p r key))
        as (k' & v' & c & Hin' & Hpath & _ & Hs & Hcontent).
      { rewrite Hn, Hsame by apply output_file_of_not_directory.
        rewrite Hnone. discriminate. }
      apply output_file_of_inj in Hpath as <-.
      rewrite Hs, (Hcontent eq_refl).
      now rewrite (assoc_list_functional info key value v' Hnd Hin Hin').
    - intros path Hne.
      destruct (decide (path = output_directory)) as [->|Hd]; [now left|].
      right. destruct (Hch path) as (k & v & c & Hin & -> & Hnone & _).
      { now rewrite Hsame. }
      exists k. split; [|split; [reflexivity|]].
      + rewrite <- Hk. change k with (fst (k, v)). now apply in_map.
      + now rewrite <- Hsame. }
  exists w1, info, w2. split; [exact Hc|]. split; [exact Hg|].
  split; [exact Hk|].
  split; [now rewrite <- (length_map fst), Hk|].
  assert (Hres : (forall key value, In (key, value) info ->
               is_Some (fs w' !! output_file_of p r key)
               /\ (fs w !! output_file_of p r key = None ->
                   fs w' !! output_file_of p r key
                   = Some (File (json_dumps value))))
            /\ (forall path, fs w' !! path <> fs w !! path ->
                  path = output_directory
                  \/ exists key, In key network_info_keys
                                 /\ path = output_file_of p r key
                                 /\ fs w !! path = None)).
  { destruct (fs w3 !! output_directory) as [n|] eqn:E.
    - apply (Hmain w3 H). intros path _. now rewrite F3, F2.
    - destruct (os_permits (fs w3) output_directory); [|discriminate].
      apply (Hmain _ H). intros path Hd. simpl.
      rewrite lookup_insert_ne by congruence. now rewrite F3, F2. }
  destruct Hres as (Hfiles & Hother).
  split; [exact Hfiles|]. split; [exact Hother|]. split.
  - apply Finite.Injective_map_NoDup; [|apply network_info_keys_NoDup].
    intros k1 k2. apply output_file_of_inj.
  - intros Hs key.
    destruct (output_file_of_cases p r key) as [[E _]|[_ E]]; [congruence|exact E].
Qed.

(** C7 (as amended): with [--verbose], a pair that passes validation and
    collection gets, right after what was on the console before, one block
    per key of its record, in the record's order: the key followed by a
    colon, the JSON text of its value, and the delimiter line.  The record
    has eleven keys, each once, so there are eleven blocks; what follows
    them can only be notices of the persister. *)
Theorem verbose_prints_each_key service p r w w1 info w2 :
  check_region service p r w = (Ok true, w1) ->
  get_network_info service p r w1 = (Ok info, w2) ->
  exists notices,
    stdout (snd (main_pair' service true p r w))
    = stdout w
      ++ flat_map (fun item => [fst item +:+ ":"; json_dumps (snd item); "-----"])
                  info
      ++ notices
    /\ map fst info = network_info_keys
    /\ List.NoDup (map fst info)
    /\ length info = 11
    /\ Forall (fun line => exists key,
                 In key network_info_keys
                 /\ line = exists_notice (output_file_of p r key)) notices.
Proof.
  intros Hc Hg.
  destruct (collected_same_fs _ _ _ _ _ _ _ Hc Hg) as (_ & O2 & _).
  pose proof (get_network_info_keys _ _ _ _ _ _ Hg) as Hk.
  rewrite (main_pair_valid _ true _ _ _ _ _ _ Hc Hg). cbv zeta.
  set (w3 := after_report json_dumps true info w2).
  assert (O3 : stdout w3 = stdout w ++ report_lines json_dumps info)
    by (simpl; now rewrite O2).
  assert (Hmain : forall ws, stdout ws = stdout w3 ->
    exists notices,
      stdout (snd (main_persist' p r info ws))
      = stdout w ++ report_lines json_dumps info ++ notices
      /\ Forall (fun line => exists key,
                   In key network_info_keys
                   /\ line = exists_notice (output_file_of p r key)) notices).
  { intros ws Hws.
    destruct (main_persist' p r info ws) as [res w'] eqn:Hp.
    apply main_persist_spec in Hp as (_ & _ & (notices & Ho & Hn) & _).
    exists notices. cbn [snd]. rewrite Ho, Hws, O3, <- app_assoc.
    split; [reflexivity|].
    eapply Forall_impl; [exact Hn|]. intros line (key & Hin & ->).
    exists key. split; [now rewrite <- Hk | reflexivity]. }
  assert (Hout : exists notices,
      stdout (snd match fs w3 !! output_directory with
                  | Some _ => main_persist' p r info w3
                  | None =>
                      if os_permits (fs w3) output_directory
                      then main_persist' p r info
                             (mkWorld (<[output_directory := Dir]> (fs w3))
                                      (stdout w3) (requests w3))
                      else (Raise (OSError output_directory), w3)
                  end)
      = stdout w ++ report_lines json_dumps info ++ notices
      /\ Forall (fun line => exists key,
                   In key network_info_keys
                   /\ line = exists_notice (output_file_of p r key)) notices).
  { destruct (fs w3 !! output_directory); [now apply Hmain|].
    destruct (os_permits (fs w3) output_directory); [now apply Hmain|].
    exists []. split; [|constructor]. simpl. now rewrite app_nil_r, O2. }
  destruct Hout as (notices & Ho & Hn). exists notices.
  split; [exact Ho|]. split; [exact Hk|].
  split; [rewrite Hk; apply network_info_keys_NoDup|].
  split; [now rewrite <- (length_map fst), Hk | exact Hn].
Qed.

(** C9: whatever [main_pair] does to the filesystem, the output directory
    included, it does after [check_region] has returned [True] and
    [get_network_info] has returned its record, and the filesystem is still
    untouched at that point.  So a run whose first pair stops at validation
    (an invalid region, or an exception in [check_region]) or at a list call
    that raises ends with an exception and with the filesystem it started
    with. *)
Theorem filesystem_untouched_until_collected :
  (forall service vb p r w,
      fs (snd (main_pair' service vb p r w)) <> fs w ->
      exists w1 info w2,
        check_region service p r w = (Ok true, w1)
        /\ get_network_info service p r w1 = (Ok info, w2)
        /\ fs w2 = fs w)
  /\ (forall args w c service,
        google_auth_default = Ok c ->
        discovery_build c = Ok service ->
        (exists res w1,
            check_region service (first_project args) (first_region args) w
            = (res, w1) /\ res <> Ok true)
        \/ (exists w1 e w2,
              check_region service (first_project args) (first_region args) w
              = (Ok true, w1)
              /\ get_network_info service (first_project args)
                   (first_region args) w1 = (Raise e, w2)) ->
        fs (snd (main' args w)) = fs w
        /\ fs (snd (main' args w)) !! output_directory = fs w !! output_directory
        /\ exists e, fst (main' args w) = Raise e).
Proof.
  assert (Hpair : forall service vb p r w,
    (exists res w1, check_region service p r w = (res, w1) /\ res <> Ok true)
    \/ (exists w1 e w2, check_region service p r w = (Ok true, w1)
                        /\ get_network_info service p r w1 = (Raise e, w2)) ->
    exists e w', main_pair' service vb p r w = (Raise e, w') /\ fs w' = fs w).
  { intros service vb p r w [(res & w1 & Hc & Hne)|(w1 & e & w2 & Hc & Hg)].
    - pose proof (check_region_only_requests service p r w) as (F1 & _).
      rewrite Hc in F1. simpl in F1.
      destruct res as [[|]|e]; [congruence | |].
      + rewrite (main_pair_invalid _ _ _ _ _ _ Hc). eauto.
      + rewrite (main_pair_check_raise _ _ _ _ _ _ _ Hc). eauto.
    - pose proof (check_region_only_requests service p r w) as (F1 & _).
      rewrite Hc in F1. simpl in F1.
      pose proof (get_network_info_only_requests service p r w1) as (F2 & _).
      rewrite Hg in F2. simpl in F2.
      rewrite (main_pair_get_raise _ _ _ _ _ _ _ _ Hc Hg).
      exists e, w2. split; congruence. }
  split.
  - intros service vb p r w Hne.
    destruct (check_region service p r w) as [[[|]|e] w1] eqn:Hc.
    + destruct (get_network_info service p r w1) as [[info|e] w2] eqn:Hg.
      * exists w1, info, w2. split; [reflexivity|]. split; [exact Hg|].
        now destruct (collected_same_fs _ _ _ _ _ _ _ Hc Hg).
      * destruct (Hpair service vb p r w) as (e' & w' & Hm & Hf).
        { right. eauto. }
        rewrite Hm in Hne. contradiction.
    + destruct (Hpair service vb p r w) as (e' & w' & Hm & Hf).
      { left. exists (Ok false), w1. split; [exact Hc | discriminate]. }
      rewrite Hm in Hne. contradiction.
    + destruct (Hpair service vb p r w) as (e' & w' & Hm & Hf).
      { left. exists (Raise e), w1. split; [exact Hc | discriminate]. }
      rewrite Hm in Hne. contradiction.
  - intros args w c service Hc Hb Hfail.
    destruct (Hpair service (verbose args) _ _ w Hfail) as (e & w' & Hm & Hf).
    rewrite (main_first_pair args w c service Hc Hb e w' Hm). simpl.
    split; [exact Hf|]. split; [now rewrite Hf | eauto].
Qed.

Lemma print_extends line : keeps extends (print line).
Proof.
  intros w. split; [reflexivity|]. split; simpl; [eauto|].
  exists []. now rewrite app_nil_r.
Qed.

Lemma os_path_exists_extends path : keeps extends (os_path_exists path).
Proof. intros w. apply extends_refl. Qed.

Lemma os_makedirs_extends path : keeps extends (os_makedirs os_permits path).
Proof.
  intros w. unfold os_makedirs.
  destruct (fs w !! path) eqn:E; [apply extends_refl|].
  destruct (os_permits (fs w) path); [|apply extends_refl].
  repeat split; simpl.
  - now apply insert_subseteq.
  - exists []. now rewrite app_nil_r.
  - exists []. now rewrite app_nil_r.
Qed.

Lemma main_report_extends info : keeps extends (main_report' info).
Proof.
  intros w. rewrite main_report_run. split; [reflexivity|].
  split; simpl; [eauto|]. exists []. now rewrite app_nil_r.
Qed.

Lemma main_persist_extends p r info : keeps extends (main_persist' p r info).
Proof.
  intros w. destruct (main_persist' p r info w) as [res w'] eqn:H.
  apply main_persist_spec in H as (Hf & Hq & (notices & Ho & _) & _).
  split; [exact Hf|]. split; simpl; [eauto|].
  exists []. now rewrite Hq, app_nil_r.
Qed.

Ltac keeps_extends :=
  repeat first
    [ apply (keeps_weaken only_requests extends);
      [ apply only_requests_extends
      | first [ apply check_region_only_requests
              | apply get_network_info_only_requests
              | apply execute_only_requests ] ]
    | apply keeps_bind; [apply extends_trans | | intros ?]
    | apply keeps_if
    | apply keeps_ret, extends_refl
    | apply keeps_raise, extends_refl
    | apply keeps_lift, extends_refl
    | apply print_extends
    | apply os_path_exists_extends
    | apply os_makedirs_extends
    | apply main_report_extends
    | apply main_persist_extends ].

Lemma main_pair_extends service vb p r : keeps extends (main_pair' service vb p r).
Proof. unfold main_pair. keeps_extends. Qed.

Lemma main_extends args : keeps extends (main' args).
Proof.
  unfold main, get_authenticated_service. keeps_extends.
  apply keeps_for_each; [apply extends_refl | apply extends_trans |]. intros p.
  apply keeps_for_each; [apply extends_refl | apply extends_trans |]. intros r.
  apply main_pair_extends.
Qed.

(** A pair processed to the end leaves the output directory and the
    eleven files of the pair behind. *)
Lemma main_pair_ok_files service vb p r w w' :
  main_pair' service vb p r w = (Ok tt, w') ->
  is_Some (fs w' !! output_directory)
  /\ (forall key, In key network_info_keys ->
                  is_Some (fs w' !! output_file_of p r key)).
Proof.
  intros H.
  destruct (main_pair_ok_inv _ _ _ _ _ _ H) as (w1 & info & w2 & Hc & Hg).
  pose proof (get_network_info_keys _ _ _ _ _ _ Hg) as Hk.
  rewrite (main_pair_valid _ vb _ _ _ _ _ _ Hc Hg) in H. cbv zeta in H.
  set (w3 := after_report json_dumps vb info w2) in *.
  destruct (fs w3 !! output_directory) as [n|] eqn:E.
  - apply main_persist_spec in H as (Hf & _ & _ & _ & Hok). split.
    + exists n. eapply lookup_weaken; eauto.
    + rewrite <- Hk. now apply Hok.
  - destruct (os_permits (fs w3) output_directory); [|discriminate].
    apply main_persist_spec in H as (Hf & _ & _ & _ & Hok). split.
    + exists Dir. eapply lookup_weaken; [|exact Hf]. apply lookup_insert_eq.
    + rewrite <- Hk. now apply Hok.
Qed.

(** A pair whose directory and files are all there: one notice per key,
    nothing written. *)
Lemma main_pair_all_exist service vb p r w w1 info w2 :
  check_region service p r w = (Ok true, w1) ->
  get_network_info service p r w1 = (Ok info, w2) ->
  is_Some (fs w !! output_directory) ->
  (forall key, In key network_info_keys ->
               is_Some (fs w !! output_file_of p r key)) ->
  main_pair' service vb p r w
  = (Ok tt,
     mkWorld (fs w)
       (stdout w
        ++ (if vb then report_lines json_dumps info else [])
        ++ map (fun item => exists_notice (output_file_of p r (fst item))) info)
       (requests w2)).
Proof.
  intros Hc Hg [n Hd] Hall.
  destruct (collected_same_fs _ _ _ _ _ _ _ Hc Hg) as (F2 & O2 & _).
  pose proof (get_network_info_keys _ _ _ _ _ _ Hg) as Hk.
  rewrite (main_pair_valid _ vb _ _ _ _ _ _ Hc Hg). cbv zeta.
  rewrite fs_after_report, F2, Hd.
  rewrite main_persist_all_exist.
  - rewrite fs_after_report, requests_after_report, F2.
    destruct vb; simpl; rewrite O2; [now rewrite <- app_assoc | reflexivity].
  - intros key Hin. rewrite fs_after_report, F2. apply Hall. now rewrite <- Hk.
Qed.

End Runs.

(** ** Running the script again *)

Section Rerun.

(** Two runs, each with its own libraries and machine. *)
Context {Credentials1 Credentials2 : Type}.
Variable google_auth_default1 : Result Credentials1.
Variable discovery_build1 : Credentials1 -> Result Service.
Variable json_dumps1 : json -> string.
Variable os_permits1 : gmap string node -> string -> bool.
Variable os_leaves1 : gmap string node -> string -> option nat.
Variable google_auth_default2 : Result Credentials2.
Variable discovery_build2 : Credentials2 -> Result Service.
Variable json_dumps2 : json -> string.
Variable os_permits2 : gmap string node -> string -> bool.
Variable os_leaves2 : gmap string node -> string -> option nat.

Local Abbreviation main1 :=
  (main Credentials1 google_auth_default1 discovery_build1 json_dumps1
        os_permits1 os_leaves1).
Local Abbreviation main2 :=
  (main Credentials2 google_auth_default2 discovery_build2 json_dumps2
        os_permits2 os_leaves2).

(** C4: when the persister reaches a path that exists, it prints the
    notice for it and goes on with the filesystem as it was; no step of a
    run changes a path that exists, so everything a first run left is there
    unchanged after a second run, whatever the second run is given and
    however it ends; and a pair that a first run processed to the end gets,
    when a second run collects it again, one notice for each of its files
    and not a single write. *)
Theorem existing_files_untouched :
  (forall p r key value rest w n,
      fs w !! output_file_of p r key = Some n ->
      main_persist json_dumps2 os_permits2 os_leaves2 p r ((key, value) :: rest) w
      = main_persist json_dumps2 os_permits2 os_leaves2 p r rest
          (mkWorld (fs w)
             (stdout w ++ ["File " +:+ output_file_of p r key
                           +:+ " already exists."])
             (requests w)))
  /\ (forall p r info w path n,
        fs w !! path = Some n ->
        fs (snd (main_persist json_dumps2 os_permits2 os_leaves2 p r info w)) !! path
        = Some n)
  /\ (forall args1 args2 w path n,
        fs (snd (main1 args1 w)) !! path = Some n ->
        fs (snd (main2 args2 (snd (main1 args1 w)))) !! path = Some n)
  /\ (forall service1 service2 vb1 vb2 p r w w' w'' w1 info w2,
        main_pair json_dumps1 os_permits1 os_leaves1 service1 vb1 p r w = (Ok tt, w') ->
        fs w' ⊆ fs w'' ->
        check_region service2 p r w'' = (Ok true, w1) ->
        get_network_info service2 p r w1 = (Ok info, w2) ->
        main_pair json_dumps2 os_permits2 os_leaves2 service2 vb2 p r w''
        = (Ok tt,
           mkWorld (fs w'')
             (stdout w''
              ++ (if vb2 then report_lines json_dumps2 info else [])
              ++ map (fun item =>
                        exists_notice (output_file_of p r (fst item))) info)
             (requests w2))).
Proof.
  split; [|split; [|split]].
  - intros p r key value rest w n H.
    now apply main_persist_cons_exists with (n := n).
  - intros p r info w path n H.
    destruct (main_persist_extends json_dumps2 os_permits2 os_leaves2 p r info w) as (Hf & _).
    eapply lookup_weaken; eauto.
  - intros args1 args2 w path n H.
    destruct (main_extends google_auth_default2 discovery_build2 json_dumps2
                os_permits2 os_leaves2 args2 (snd (main1 args1 w))) as (Hf & _).
    eapply lookup_weaken; eauto.
  - intros service1 service2 vb1 vb2 p r w w' w'' w1 info w2 H1 Hsub Hc Hg.
    destruct (main_pair_ok_files _ _ _ _ _ _ _ _ _ H1) as ([d Hd] & Hfiles).
    apply main_pair_all_exist with (w1 := w1); try assumption.
    + exists d. eapply lookup_weaken; eauto.
    + intros key Hin. destruct (Hfiles key Hin) as [n Hn].
      exists n. eapply lookup_weaken; eauto.
Qed.

End Rerun.


(** ** The demo project *)

Lemma invalid_first_region_exits_1_witness :
  Demo.run Demo.args_moon Demo.fresh
  = (Raise (SystemExit 1),
     mkWorld ∅ ["The region moon-base1 is not valid."]
             [List_ regions "demo-proj" None])
  /\ exit_status (fst (Demo.run Demo.args_moon Demo.fresh)) = 1%Z
  /\ fs (snd (Demo.run Demo.args_moon Demo.fresh)) = ∅.
Proof.
  apply (invalid_first_region_exits_1 (Ok tt) (fun _ => Ok Demo.service)
           Demo.render Demo.permit_all Demo.leave_nothing Demo.args_moon Demo.fresh tt
           Demo.service Demo.region_list
           [JStr "us-central1"; JStr "europe-west1"]);
    try reflexivity.
  intros [H|[H|[]]]; discriminate.
Defined.

Lemma pair_writes_eleven_files_witness :
  exists info,
    map fst info = network_info_keys
    /\ length info = 11
    /\ (forall key value, In (key, value) info ->
          fs (snd (Demo.run Demo.args_quiet Demo.fresh))
            !! output_file_of "demo-proj" "us-central1" key
          = Some (File (Demo.render value))).
Proof.
  destruct (pair_writes_eleven_files Demo.render Demo.permit_all Demo.leave_nothing Demo.service
              false "demo-proj" "us-central1" Demo.fresh
              (snd (Demo.run Demo.args_quiet Demo.fresh)))
    as (w1 & info & w2 & _ & _ & Hk & Hl & Hfiles & _).
  - vm_compute. reflexivity.
  - exists info. split; [exact Hk|]. split; [exact Hl|].
    intros key value Hin. apply (Hfiles key value Hin). apply lookup_empty.
Defined.

(** C2 as stated fails: the quiet run on the demo project ends normally
    with eleven files, not ten, and two of them are the files of the keys
    [project] and [region], which are no resource keys. *)
Lemma persister_writes_project_and_region_files :
  fst (Demo.run Demo.args_quiet Demo.fresh) = Ok tt
  /\ length (files (fs (snd (Demo.run Demo.args_quiet Demo.fresh)))) = 11
  /\ length (files (fs (snd (Demo.run Demo.args_quiet Demo.fresh)))) <> 10
  /\ fs (snd (Demo.run Demo.args_quiet Demo.fresh))
       !! "output/demo-proj_us-central1_project.json"
     = Some (File (Demo.render (JStr "demo-proj")))
  /\ fs (snd (Demo.run Demo.args_quiet Demo.fresh))
       !! "output/demo-proj_us-central1_region.json"
     = Some (File (Demo.render (JStr "us-central1")))
  /\ ~ In "project" resource_keys
  /\ ~ In "region" resource_keys.
Proof.
  split; [vm_compute; reflexivity|].
  split; [vm_compute; reflexivity|].
  split; [vm_compute; discriminate|].
  split; [vm_compute; reflexivity|].
  split; [vm_compute; reflexivity|].
  split; intros H; simpl in H; repeat (destruct H as [H|H]; [discriminate|]);
    contradiction.
Qed.

Lemma verbose_prints_each_key_witness :
  exists notices,
    stdout (snd (main_pair Demo.render Demo.permit_all Demo.leave_nothing Demo.service true
                   "demo-proj" "us-central1" Demo.fresh))
    = stdout Demo.fresh
      ++ flat_map (fun item => [fst item +:+ ":"; Demo.render (snd item); "-----"])
           (network_info_of "demo-proj" "us-central1" (repeat Demo.no_items 9))
      ++ notices.
Proof.
  destruct (verbose_prints_each_key Demo.render Demo.permit_all Demo.leave_nothing Demo.service
              "demo-proj" "us-central1" Demo.fresh
              (after_request (List_ regions "demo-proj" None) Demo.fresh)
              (network_info_of "demo-proj" "us-central1"
                 (repeat Demo.no_items 9))
              (mkWorld ∅ []
                 (List_ regions "demo-proj" None
                  :: network_requests "demo-proj" "us-central1")))
    as (notices & H & _).
  - vm_compute. reflexivity.
  - vm_compute. reflexivity.
  - exists notices. exact H.
Defined.

(** C7 as stated fails: the verbose run on the demo project prints eleven
    blocks (eleven delimiter lines among thirty-three lines), not twelve. *)
Lemma verbose_prints_eleven_blocks :
  stdout (snd (Demo.run Demo.args_ok Demo.fresh))
  = flat_map (fun item => [fst item +:+ ":"; Demo.render (snd item); "-----"])
      (network_info_of "demo-proj" "us-central1" (repeat Demo.no_items 9))
  /\ length (List.filter (String.eqb "-----")
               (stdout (snd (Demo.run Demo.args_ok Demo.fresh)))) = 11
  /\ length (List.filter (String.eqb "-----")
               (stdout (snd (Demo.run Demo.args_ok Demo.fresh)))) <> 10 + 2.
Proof.
  split; [vm_compute; reflexivity|].
  split; [vm_compute; reflexivity | vm_compute; discriminate].
Qed.

Lemma filesystem_untouched_until_collected_witness :
  fs (snd (Demo.run Demo.args_moon Demo.fresh)) = fs Demo.fresh
  /\ fs (snd (Demo.run Demo.args_moon Demo.fresh)) !! output_directory
     = fs Demo.fresh !! output_directory
  /\ exists e, fst (Demo.run Demo.args_moon Demo.fresh) = Raise e.
Proof.
  destruct (filesystem_untouched_until_collected (Ok tt)
              (fun _ => Ok Demo.service) Demo.render Demo.permit_all Demo.leave_nothing)
    as (_ & Hrun).
  apply (Hrun Demo.args_moon Demo.fresh tt Demo.service); try reflexivity.
  left. exists (Ok false), (after_request (List_ regions "demo-proj" None) Demo.fresh).
  split; [vm_compute; reflexivity | discriminate].
Defined.

Lemma existing_files_untouched_witness :
  main_pair Demo.render Demo.permit_all Demo.leave_nothing Demo.service false "demo-proj"
    "us-central1" (snd (Demo.run Demo.args_quiet Demo.fresh))
  = (Ok tt,
     mkWorld (fs (snd (Demo.run Demo.args_quiet Demo.fresh)))
       (map (fun key => exists_notice
                          (output_file_of "demo-proj" "us-central1" key))
            network_info_keys)
       (requests (snd (Demo.run Demo.args_quiet Demo.fresh))
        ++ requests (snd (Demo.run Demo.args_quiet Demo.fresh)))).
Proof.
  destruct (existing_files_untouched (Ok tt) (fun _ => Ok Demo.service)
              Demo.render Demo.permit_all Demo.leave_nothing (Ok tt) (fun _ => Ok Demo.service)
              Demo.render Demo.permit_all Demo.leave_nothing) as (_ & _ & _ & Hagain).
  rewrite (Hagain Demo.service Demo.service false false "demo-proj"
             "us-central1" Demo.fresh
             (snd (Demo.run Demo.args_quiet Demo.fresh))
             (snd (Demo.run Demo.args_quiet Demo.fresh))
             (after_request (List_ regions "demo-proj" None)
                (snd (Demo.run Demo.args_quiet Demo.fresh)))
             (network_info_of "demo-proj" "us-central1"
                (repeat Demo.no_items 9))
             (mkWorld (fs (snd (Demo.run Demo.args_quiet Demo.fresh))) []
                (requests (snd (Demo.run Demo.args_quiet Demo.fresh))
                 ++ requests (snd (Demo.run Demo.args_quiet Demo.fresh))))).
  - reflexivity.
  - vm_compute. reflexivity.
  - reflexivity.
  - vm_compute. reflexivity.
  - vm_compute. reflexivity.
Defined.

(** * Further properties of the script *)

(** ** Validation and collection on their own *)

Lemma check_region_scan_prefix pre entry post r w :
  Forall (fun e => exists name, py_getitem e "name" = Ok name
                                /\ py_eq_str name r = false) pre ->
  check_region_scan (pre ++ entry :: post) r w
  = check_region_scan (entry :: post) r w.
Proof.
  induction pre as [|e pre IH]; intros H; [reflexivity|].
  inversion H as [|? ? (name & Hn & Hne) Hrest]; subst.
  simpl. unfold bind at 1, lift at 1. rewrite Hn, Hne. now apply IH.
Qed.

Lemma check_region_items service p r w response items available :
  service (length (requests w)) (List_ regions p None) = Ok response ->
  py_getitem response "items" = Ok items ->
  py_iter items = Ok available ->
  check_region service p r w
  = check_region_scan available r (after_request (List_ regions p None) w).
Proof.
  intros Hs Hi Ha. unfold check_region. rewrite bind_execute, Hs.
  unfold bind, lift. now rewrite Hi, Ha.
Qed.

(** X2: the scan of [check_region] ends at the first entry it can decide on.
    With every entry before it named otherwise, an entry named like the
    region makes it return [True] whatever the entries after it are, and
    an entry whose [name] cannot be read makes it raise that error, whether
    or not a later entry would have matched. *)
Theorem check_region_stops_at_first_decision
    service p r w response items pre entry post :
  service (length (requests w)) (List_ regions p None) = Ok response ->
  py_getitem response "items" = Ok items ->
  py_iter items = Ok (pre ++ entry :: post) ->
  Forall (fun e => exists name, py_getitem e "name" = Ok name
                                /\ py_eq_str name r = false) pre ->
  (py_getitem entry "name" = Ok (JStr r) ->
   check_region service p r w
   = (Ok true, after_request (List_ regions p None) w))
  /\ (forall e, py_getitem entry "name" = Raise e ->
       check_region service p r w
       = (Raise e, after_request (List_ regions p None) w)).
Proof.
  intros Hs Hi Ha Hpre.
  rewrite (check_region_items _ _ _ _ _ _ _ Hs Hi Ha).
  rewrite (check_region_scan_prefix _ _ _ _ _ Hpre). split.
  - intros Hn. simpl. unfold bind, lift. rewrite Hn. simpl.
    now rewrite String.eqb_refl.
  - intros e Hn. simpl. unfold bind, lift. now rewrite Hn.
Qed.

Lemma check_region_stops_at_first_decision_witness :
  check_region Cases.ragged_service "demo-proj" "europe-west1" Demo.fresh
  = (Ok true, after_request (List_ regions "demo-proj" None) Demo.fresh)
  /\ check_region Cases.ragged_service "demo-proj" "moon-base1" Demo.fresh
     = (Raise (KeyError "name"),
        after_request (List_ regions "demo-proj" None) Demo.fresh).
Proof.
  split.
  - apply (check_region_stops_at_first_decision Cases.ragged_service
             "demo-proj" "europe-west1" Demo.fresh Cases.ragged_list
             (JArr [ JObj [("name", JStr "us-central1")];
                     JObj [("name", JStr "europe-west1")];
                     JObj [("description", JStr "unnamed")] ])
             [JObj [("name", JStr "us-central1")]]
             (JObj [("name", JStr "europe-west1")])
             [JObj [("description", JStr "unnamed")]]); try reflexivity.
    repeat constructor. exists (JStr "us-central1"). split; reflexivity.
  - apply (check_region_stops_at_first_decision Cases.ragged_service
             "demo-proj" "moon-base1" Demo.fresh Cases.ragged_list
             (JArr [ JObj [("name", JStr "us-central1")];
                     JObj [("name", JStr "europe-west1")];
                     JObj [("description", JStr "unnamed")] ])
             [JObj [("name", JStr "us-central1")];
              JObj [("name", JStr "europe-west1")]]
             (JObj [("description", JStr "unnamed")])
             []); try reflexivity.
    repeat constructor.
    + exists (JStr "us-central1"). split; reflexivity.
    + exists (JStr "europe-west1"). split; reflexivity.
Defined.

(** X3: validation and collection only read.  [check_region] sends exactly
    one request, the listing of the project's regions, however the response
    turns out, and neither it nor [get_network_info] prints a line or
    changes a file, whether they return or raise. *)
Theorem validation_and_collection_only_read service p r w :
  requests (snd (check_region service p r w))
  = requests w ++ [List_ regions p None]
  /\ fs (snd (check_region service p r w)) = fs w
  /\ stdout (snd (check_region service p r w)) = stdout w
  /\ fs (snd (get_network_info service p r w)) = fs w
  /\ stdout (snd (get_network_info service p r w)) = stdout w.
Proof.
  destruct (check_region_only_requests service p r w) as (F1 & O1 & _).
  destruct (get_network_info_only_requests service p r w) as (F2 & O2 & _).
  split; [apply check_region_first_request|]. auto.
Qed.

Lemma execute_all_first_failure service reqs w k req e :
  reqs !! k = Some req ->
  (forall i q, i < k -> reqs !! i = Some q ->
               exists v, service (length (requests w) + i) q = Ok v) ->
  service (length (requests w) + k) req = Raise e ->
  execute_all service reqs w
  = (Raise e, mkWorld (fs w) (stdout w) (requests w ++ take (S k) reqs)).
Proof.
  revert w k. induction reqs as [|q rest IH]; intros w k Hk Hbefore Hfail;
    [destruct k; discriminate|].
  cbn [execute_all]. rewrite bind_execute. destruct k as [|k].
  - injection Hk as ->. rewrite Nat.add_0_r in Hfail. now rewrite Hfail.
  - destruct (Hbefore 0 q) as [v Hv]; [lia | reflexivity |].
    rewrite Nat.add_0_r in Hv. rewrite Hv.
    unfold bind. rewrite (IH (after_request q w) k); simpl.
    + now rewrite <- app_assoc.
    + exact Hk.
    + intros i q' Hi Hq'. destruct (Hbefore (S i) q') as [v' Hv']; [lia | exact Hq' |].
      exists v'. rewrite length_app. simpl. rewrite <- Hv'. f_equal. lia.
    + rewrite length_app. simpl. rewrite <- Hfail. f_equal. lia.
Qed.

(** X5: [get_network_info] gives up at the first list call that raises: it
    raises that very exception, the requests before it and the failing one
    have been sent, and none of the later ones is. *)
Theorem get_network_info_first_failure service p r w k req e :
  network_requests p r !! k = Some req ->
  (forall i q, i < k -> network_requests p r !! i = Some q ->
               exists v, service (length (requests w) + i) q = Ok v) ->
  service (length (requests w) + k) req = Raise e ->
  get_network_info service p r w
  = (Raise e,
     mkWorld (fs w) (stdout w)
             (requests w ++ take (S k) (network_requests p r))).
Proof.
  intros Hk Hbefore Hfail. rewrite get_network_info_unfold.
  apply bind_raise. now apply execute_all_first_failure with (req := req).
Qed.

Lemma get_network_info_first_failure_witness :
  get_network_info Cases.no_routes_service "demo-proj" "us-central1" Demo.fresh
  = (Raise (HttpError "forbidden"),
     mkWorld ∅ []
       [ List_ networks "demo-proj" None;
         List_ subnetworks "demo-proj" (Some "us-central1");
         List_ routes "demo-proj" None ]).
Proof.
  apply (get_network_info_first_failure Cases.no_routes_service "demo-proj"
           "us-central1" Demo.fresh 2 (List_ routes "demo-proj" None)
           (HttpError "forbidden")); try reflexivity.
  intros i q Hi Hq.
  destruct i as [|[|i]]; [| |lia]; injection Hq as <-; eexists; reflexivity.
Defined.

(** X4: every resource key of the record holds the response of its own list
    call, as the client gave it: [vpcs] that of networks, [lan_interfaces]
    that of regionBackendServices, [external_gateways] that of
    externalVpnGateways, and so on down the dict literal. *)
Theorem network_info_holds_the_responses service p r w info w' :
  get_network_info service p r w = (Ok info, w') ->
  (forall i key req,
      resource_keys !! i = Some key ->
      network_requests p r !! i = Some req ->
      exists v, assoc key info = Some v
                /\ service (length (requests w) + i) req = Ok v)
  /\ combine resource_keys (map collection (network_requests p r))
     = [ ("vpcs", networks); ("subnetworks", subnetworks); ("routes", routes);
         ("interconnects", interconnects);
         ("lan_interfaces", regionBackendServices);
         ("vpn_gateways", vpnGateways);
         ("external_gateways", externalVpnGateways);
         ("vpn_tunnels", vpnTunnels); ("routers", routers) ].
Proof.
  intros H. split; [|reflexivity].
  rewrite get_network_info_unfold in H.
  apply bind_inv_ok in H as (vs & w1 & H1 & H2).
  apply execute_all_ok in H1 as (Hl & _ & Hresp).
  injection H2 as <- _.
  do 10 (destruct vs as [|? vs]; try discriminate).
  intros i key req Hkey Hreq.
  specialize (Hresp i req Hreq).
  do 9 (destruct i as [|i];
        [ injection Hkey as <-; simpl in Hresp; injection Hresp as Hresp;
          eexists; split; [reflexivity | exact Hresp] |]).
  discriminate.
Qed.

Lemma network_info_holds_the_responses_witness :
  exists v,
    assoc "lan_interfaces"
      (network_info_of "demo-proj" "us-central1" (repeat Demo.no_items 9))
    = Some v
    /\ Demo.service (0 + 4)
         (List_ regionBackendServices "demo-proj" (Some "us-central1"))
       = Ok v.
Proof.
  destruct (network_info_holds_the_responses Demo.service "demo-proj"
              "us-central1" Demo.fresh
              (network_info_of "demo-proj" "us-central1"
                 (repeat Demo.no_items 9))
              (mkWorld ∅ [] (network_requests "demo-proj" "us-central1")))
    as (Hvalues & _).
  - vm_compute. reflexivity.
  - apply (Hvalues 4 "lan_interfaces"
             (List_ regionBackendServices "demo-proj" (Some "us-central1")));
      reflexivity.
Defined.

(** ** Whole runs *)

Section Whole.

Context {Credentials : Type}.
Variable google_auth_default : Result Credentials.
Variable discovery_build : Credentials -> Result Service.
Variable json_dumps : json -> string.
Variable os_permits : gmap string node -> string -> bool.
Variable os_leaves : gmap string node -> string -> option nat.

Local Abbreviation persist' := (main_persist json_dumps os_permits os_leaves).
Local Abbreviation pair' := (main_pair json_dumps os_permits os_leaves).
Local Abbreviation run' :=
  (main Credentials google_auth_default discovery_build json_dumps os_permits os_leaves).
Local Abbreviation pairs' := (main_pairs json_dumps os_permits os_leaves).

(** [main] is the loop over its pairs once the client is there. *)
Lemma main_as_pairs args w c service :
  google_auth_default = Ok c ->
  discovery_build c = Ok service ->
  run' args w = pairs' service (verbose args) (pairs_of args) w.
Proof.
  intros Hc Hb. unfold main.
  rewrite (bind_ok _ _ _ _ _
             (get_authenticated_service_ok _ _ c service w Hc Hb)).
  unfold main_pairs, pairs_of. apply for_each_list_prod.
Qed.

Lemma main_ok_service args w w' :
  run' args w = (Ok tt, w') ->
  exists c service, google_auth_default = Ok c /\ discovery_build c = Ok service.
Proof.
  unfold main, get_authenticated_service, bind, lift, ret.
  destruct google_auth_default as [c|e]; [|discriminate].
  destruct (discovery_build c) as [service|e] eqn:Hb; [|discriminate].
  eauto.
Qed.

(** X1: when the credentials cannot be found or the client cannot be built,
    [main] ends with that exception at once: no request is sent, nothing is
    printed, no file or directory is made. *)
Theorem no_client_no_effect args w e :
  google_auth_default = Raise e
  \/ (exists c, google_auth_default = Ok c /\ discovery_build c = Raise e) ->
  main Credentials google_auth_default discovery_build json_dumps os_permits os_leaves
       args w
  = (Raise e, w).
Proof.
  intros [H|(c & Hc & Hb)]; unfold main, get_authenticated_service, bind, lift.
  - now rewrite H.
  - now rewrite Hc, Hb.
Qed.

Lemma pairs_extends service vb pairs : keeps extends (pairs' service vb pairs).
Proof.
  unfold main_pairs.
  apply keeps_for_each; [apply extends_refl | apply extends_trans |].
  intros pair. apply main_pair_extends.
Qed.

(** A pair processed to the end has cost its ten requests. *)
Lemma main_pair_ok_requests service vb p r w w' :
  pair' service vb p r w = (Ok tt, w') ->
  requests w' = requests w ++ pair_requests (p, r).
Proof.
  intros H.
  destruct (main_pair_ok_inv _ _ _ _ _ _ _ _ _ H) as (w1 & info & w2 & Hc & Hg).
  destruct (collected_same_fs _ _ _ _ _ _ _ Hc Hg) as (_ & _ & Q2).
  rewrite (main_pair_valid _ _ _ _ vb _ _ _ _ _ _ Hc Hg) in H. cbv zeta in H.
  pose proof (requests_after_report json_dumps vb info w2) as Q3.
  set (w3 := after_report json_dumps vb info w2) in *.
  unfold pair_requests. cbn [fst snd]. rewrite <- Q2, <- Q3.
  destruct (fs w3 !! output_directory).
  - now apply main_persist_spec in H as (_ & Hq & _).
  - destruct (os_permits (fs w3) output_directory); [|discriminate].
    now apply main_persist_spec in H as (_ & Hq & _).
Qed.

Lemma pairs_ok_requests service vb pairs w w' :
  pairs' service vb pairs w = (Ok tt, w') ->
  requests w' = requests w ++ flat_map pair_requests pairs.
Proof.
  unfold main_pairs. revert w. induction pairs as [|[p r] pairs IH]; intros w H.
  - injection H as <-. now rewrite app_nil_r.
  - cbn [for_each] in H. apply bind_inv_ok in H as ([] & w1 & H1 & H2).
    cbn [fst snd] in H1. apply main_pair_ok_requests in H1.
    apply IH in H2. cbn [flat_map]. now rewrite H2, H1, <- app_assoc.
Qed.

Lemma pairs_ok_files service vb pairs w w' :
  pairs' service vb pairs w = (Ok tt, w') ->
  forall p r key,
    In (p, r) pairs -> In key network_info_keys ->
    is_Some (fs w' !! output_file_of p r key).
Proof.
  revert w. induction pairs as [|[p0 r0] pairs IH]; intros w H p r key Hin Hkey;
    [contradiction|].
  unfold main_pairs in H. cbn [for_each] in H. apply bind_inv_ok in H as ([] & w1 & H1 & H2).
  cbn [fst snd] in H1. destruct Hin as [Heq|Hin].
  - injection Heq as <- <-.
    destruct (main_pair_ok_files _ _ _ _ _ _ _ _ _ H1) as (_ & Hfiles).
    destruct (Hfiles key Hkey) as [n Hn].
    destruct (pairs_extends service vb pairs w1) as (Hsub & _).
    unfold main_pairs in Hsub. rewrite H2 in Hsub. exists n. eapply lookup_weaken; eauto.
  - now apply (IH w1 H2).
Qed.

(** X6: a run that ends normally has sent, for every pair in the order of
    the loops (projects outside, regions inside), the listing of the
    project's regions followed by the nine list requests of the pair, and
    nothing else: ten requests a pair, the region listing fetched anew for
    each region of the same project. *)
Theorem normal_run_requests args w w' :
  run' args w = (Ok tt, w') ->
  requests w' = requests w ++ flat_map pair_requests (pairs_of args)
  /\ length (requests w')
     = length (requests w)
       + 10 * (length (str_split "," (project args))
               * length (str_split "," (region args))).
Proof.
  intros H. destruct (main_ok_service _ _ _ H) as (c & service & Hc & Hb).
  rewrite (main_as_pairs _ _ c service Hc Hb) in H.
  apply pairs_ok_requests in H. split; [exact H|].
  rewrite H, length_app. f_equal.
  unfold pairs_of. rewrite <- length_prod.
  induction (list_prod _ _) as [|pair l IH]; [reflexivity|].
  cbn [flat_map]. rewrite length_app, IH. simpl. lia.
Qed.

(** The run up to its first pair that raises. *)
Lemma pairs_stop service vb pre p r post w w1 e w2 :
  pairs' service vb pre w = (Ok tt, w1) ->
  pair' service vb p r w1 = (Raise e, w2) ->
  pairs' service vb (pre ++ (p, r) :: post) w = (Raise e, w2).
Proof.
  intros Hpre Hpair. unfold main_pairs in *. rewrite for_each_app.
  rewrite (bind_ok _ _ _ _ _ Hpre).
  cbn [for_each]. apply bind_raise. exact Hpair.
Qed.

(** X8: the first pair that raises ends the run, wherever it stands in the
    queue: [main] ends with that pair's exception in the world that pair
    left, so the pairs after it are never attempted and every file of the
    pairs before it is still there.  For a region that a listing page of
    named entries does not name, that is the message, [SystemExit(1)] and
    the filesystem as the earlier pairs left it; for a listing without
    [items] it is [KeyError] without a message, the filesystem again as the
    earlier pairs left it. *)
Theorem run_stops_at_first_failing_pair args w c service pre p r post w1 :
  google_auth_default = Ok c ->
  discovery_build c = Ok service ->
  pairs_of args = pre ++ (p, r) :: post ->
  pairs' service (verbose args) pre w = (Ok tt, w1) ->
  (forall e w2,
      pair' service (verbose args) p r w1 = (Raise e, w2) ->
      run' args w = (Raise e, w2)
      /\ (forall p0 r0 key,
            In (p0, r0) pre -> In key network_info_keys ->
            is_Some (fs w2 !! output_file_of p0 r0 key)))
  /\ (forall response names,
        service (length (requests w1)) (List_ regions p None) = Ok response ->
        region_names response = Some names ->
        ~ In (JStr r) names ->
        run' args w
        = (Raise (SystemExit 1),
           mkWorld (fs w1)
             (stdout w1 ++ ["The region " +:+ r +:+ " is not valid."])
             (requests w1 ++ [List_ regions p None])))
  /\ (forall members,
        service (length (requests w1)) (List_ regions p None)
        = Ok (JObj members) ->
        assoc "items" members = None ->
        run' args w
        = (Raise (KeyError "items"),
           mkWorld (fs w1) (stdout w1)
                   (requests w1 ++ [List_ regions p None]))).
Proof.
  intros Hc Hb Hpairs Hpre.
  assert (Hstop : forall e w2,
    pair' service (verbose args) p r w1 = (Raise e, w2) ->
    run' args w = (Raise e, w2)).
  { intros e w2 Hpair. rewrite (main_as_pairs _ _ c service Hc Hb), Hpairs.
    now apply pairs_stop with (w1 := w1). }
  split; [|split].
  - intros e w2 Hpair. split; [now apply Hstop|].
    intros p0 r0 key Hin Hkey.
    destruct (pairs_ok_files _ _ _ _ _ Hpre p0 r0 key Hin Hkey) as [n Hn].
    destruct (main_pair_extends json_dumps os_permits os_leaves service (verbose args)
                p r w1) as (Hsub & _).
    rewrite Hpair in Hsub. exists n. eapply lookup_weaken; eauto.
  - intros response names Hs Hn Hnot. apply Hstop.
    rewrite (main_pair_invalid _ _ _ service (verbose args) p r w1
               (after_request (List_ regions p None) w1)); [reflexivity|].
    rewrite (check_region_listing _ _ _ _ _ _ Hs Hn). f_equal. f_equal.
    destruct (existsb _ names) eqn:E; [|reflexivity].
    apply existsb_py_eq_str in E. contradiction.
  - intros members Hs Hn. apply Hstop.
    apply main_pair_check_raise.
    now apply check_region_no_items with (members := members).
Qed.

Lemma main_persist_permitted p r info w :
  (forall m path, os_permits m path = true) ->
  exists w', persist' p r info w = (Ok tt, w').
Proof.
  intros Hp. revert w. induction info as [|[key value] rest IH]; intros w.
  - exists w. reflexivity.
  - destruct (fs w !! output_file_of p r key) as [n|] eqn:E.
    + rewrite (main_persist_cons_exists _ _ _ _ _ _ _ _ _ _ E). apply IH.
    + rewrite (main_persist_cons_new _ _ _ _ _ _ _ _ _ E (Hp _ _)). apply IH.
Qed.

Lemma main_pair_succeeds service vb p r w :
  (forall m path, os_permits m path = true) ->
  (exists response names,
      service (length (requests w)) (List_ regions p None) = Ok response
      /\ region_names response = Some names /\ In (JStr r) names) ->
  (forall n req, In req (network_requests p r) ->
                 exists v, service n req = Ok v) ->
  exists w', pair' service vb p r w = (Ok tt, w').
Proof.
  intros Hp (response & names & Hs & Hn & Hin) Hall.
  pose proof (check_region_listing _ _ r _ _ _ Hs Hn) as Hc.
  apply existsb_py_eq_str in Hin. rewrite Hin in Hc.
  destruct (execute_all_total service (network_requests p r)
              (after_request (List_ regions p None) w) Hall)
    as (vs & w2 & Hr).
  assert (Hg : get_network_info service p r
                 (after_request (List_ regions p None) w)
               = (Ok (network_info_of p r vs), w2)).
  { rewrite get_network_info_unfold. now rewrite (bind_ok _ _ _ _ _ Hr). }
  rewrite (main_pair_valid _ _ _ _ vb _ _ _ _ _ _ Hc Hg). cbv zeta.
  destruct (fs _ !! output_directory); [apply main_persist_permitted, Hp|].
  rewrite Hp. apply main_persist_permitted, Hp.
Qed.

Lemma main_pairs_succeed service vb pairs w :
  (forall m path, os_permits m path = true) ->
  (forall n p r, In (p, r) pairs ->
     exists response names,
       service n (List_ regions p None) = Ok response
       /\ region_names response = Some names /\ In (JStr r) names) ->
  (forall n p r req, In (p, r) pairs -> In req (network_requests p r) ->
                     exists v, service n req = Ok v) ->
  exists w', pairs' service vb pairs w = (Ok tt, w').
Proof.
  intros Hp. revert w. induction pairs as [|[p r] pairs IH]; intros w Hl Hall.
  - exists w. reflexivity.
  - destruct (main_pair_succeeds service vb p r w Hp) as [w1 H1].
    + apply Hl. now left.
    + intros n req. apply Hall. now left.
    + destruct (IH w1) as [w' H2].
      * intros n p0 r0 Hin. apply Hl. now right.
      * intros n p0 r0 req Hin. apply Hall. now right.
      * exists w'. unfold main_pairs in *. cbn [for_each fst snd].
        now rewrite (bind_ok _ _ _ _ _ H1).
Qed.

(** X7: when the client is there, every listing the client gives names the
    region it is asked about, every other list call answers, and the
    operating system lets every path be made, [main] goes through all its
    pairs and returns: the process status is 0 and the eleven files of every
    pair are there. *)
Theorem run_completes args w c service :
  google_auth_default = Ok c ->
  discovery_build c = Ok service ->
  (forall m path, os_permits m path = true) ->
  (forall n p r, In (p, r) (pairs_of args) ->
     exists response names,
       service n (List_ regions p None) = Ok response
       /\ region_names response = Some names /\ In (JStr r) names) ->
  (forall n p r req,
     In (p, r) (pairs_of args) -> In req (network_requests p r) ->
     exists v, service n req = Ok v) ->
  exists w',
    run' args w = (Ok tt, w')
    /\ exit_status (fst (run' args w)) = 0%Z
    /\ (forall p r key,
          In (p, r) (pairs_of args) -> In key network_info_keys ->
          is_Some (fs w' !! output_file_of p r key)).
Proof.
  intros Hc Hb Hp Hl Hall.
  destruct (main_pairs_succeed service (verbose args) (pairs_of args) w Hp Hl Hall)
    as [w' H].
  exists w'. rewrite (main_as_pairs _ _ c service Hc Hb), H.
  split; [reflexivity|]. split; [reflexivity|].
  intros p r key. now apply (pairs_ok_files _ _ _ _ _ H).
Qed.

Lemma main_persist_notices p r info w w' :
  List.NoDup (map fst info) ->
  persist' p r info w = (Ok tt, w') ->
  stdout w'
  = stdout w
    ++ map (fun key => exists_notice (output_file_of p r key))
         (List.filter (fun key => path_exists (fs w) (output_file_of p r key))
                      (map fst info)).
Proof.
  revert w. induction info as [|[key value] rest IH]; intros w Hnd H.
  - injection H as <-. simpl. now rewrite app_nil_r.
  - simpl in Hnd. inversion Hnd as [|? ? Hnotin Hnd']; subst.
    cbn [map fst List.filter]. unfold path_exists at 1.
    destruct (fs w !! output_file_of p r key) as [n|] eqn:E.
    + rewrite (main_persist_cons_exists _ _ _ _ _ _ _ _ _ _ E) in H.
      apply IH in H; [|exact Hnd']. rewrite H. simpl.
      now rewrite <- app_assoc.
    + destruct (os_permits (fs w) (output_file_of p r key)) eqn:Ep.
      * rewrite (main_persist_cons_new _ _ _ _ _ _ _ _ _ E Ep) in H.
        apply IH in H; [|exact Hnd']. rewrite H. cbn [stdout fs].
        do 2 f_equal. apply List.filter_ext_in. intros k Hk.
        unfold path_exists. rewrite lookup_insert_ne; [reflexivity|].
        intros Heq. apply output_file_of_inj in Heq. congruence.
      * rewrite (main_persist_cons_refused _ _ _ _ _ _ _ _ _ E Ep) in H.
        discriminate.
Qed.

(** X10: what a pair processed to the end prints is settled by the files
    that were there before it: after the report of [--verbose], if asked
    for, one notice for each key whose file existed when the pair began, in
    the order of the keys, and nothing for the files it writes. *)
Theorem pair_prints_notices_for_old_files service vb p r w w1 info w2 w' :
  check_region service p r w = (Ok true, w1) ->
  get_network_info service p r w1 = (Ok info, w2) ->
  pair' service vb p r w = (Ok tt, w') ->
  stdout w'
  = stdout w
    ++ (if vb then report_lines json_dumps info else [])
    ++ map (fun key => "File " +:+ output_file_of p r key
                       +:+ " already exists.")
         (List.filter
            (fun key => path_exists (fs w) (output_file_of p r key))
            network_info_keys).
Proof.
  intros Hc Hg H.
  destruct (collected_same_fs _ _ _ _ _ _ _ Hc Hg) as (F2 & O2 & _).
  pose proof (get_network_info_keys _ _ _ _ _ _ Hg) as Hk.
  rewrite (main_pair_valid _ _ _ _ vb _ _ _ _ _ _ Hc Hg) in H. cbv zeta in H.
  pose proof (fs_after_report json_dumps vb info w2) as F3.
  assert (O3 : stdout (after_report json_dumps vb info w2)
               = stdout w ++ (if vb then report_lines json_dumps info else [])).
  { destruct vb; simpl; rewrite O2; [reflexivity | now rewrite app_nil_r]. }
  set (w3 := after_report json_dumps vb info w2) in *.
  assert (Hnd : List.NoDup (map fst info))
    by (rewrite Hk; apply network_info_keys_NoDup).
  assert (Hmain : forall ws,
    persist' p r info ws = (Ok tt, w') -> stdout ws = stdout w3 ->
    (forall path, path <> output_directory -> fs ws !! path = fs w !! path) ->
    stdout w'
    = stdout w
      ++ (if vb then report_lines json_dumps info else [])
      ++ map (fun key => exists_notice (output_file_of p r key))
           (List.filter
              (fun key => path_exists (fs w) (output_file_of p r key))
              network_info_keys)).
  { intros ws Hp Hout Hsame.
    rewrite (main_persist_notices _ _ _ _ _ Hnd Hp), Hout, O3, <- app_assoc, Hk.
    do 3 f_equal. apply List.filter_ext_in. intros key _.
    unfold path_exists. now rewrite Hsame by apply output_file_of_not_directory. }
  destruct (fs w3 !! output_directory) as [n|] eqn:E.
  - apply (Hmain w3 H eq_refl). intros path _. now rewrite F3, F2.
  - destruct (os_permits (fs w3) output_directory); [|discriminate].
    apply (Hmain _ H eq_refl). intros path Hd. simpl.
    rewrite lookup_insert_ne by congruence. now rewrite F3, F2.
Qed.

End Whole.

(** ** The console does not steer the run *)

Lemma sim_ret {A} (a : A) : sim (ret a) (ret a).
Proof. intros w w' H. now split. Qed.

Lemma sim_raise {A} e : sim (@raise A e) (raise e).
Proof. intros w w' H. now split. Qed.

Lemma sim_lift {A} (r : Result A) : sim (lift r) (lift r).
Proof. intros w w' H. now split. Qed.

Lemma sim_bind {A B} (m m' : M A) (k k' : A -> M B) :
  sim m m' -> (forall a, sim (k a) (k' a)) -> sim (bind m k) (bind m' k').
Proof.
  intros Hm Hk w w' Ha. destruct (Hm w w' Ha) as (Hr & Ha1). unfold bind.
  destruct (m w) as [[a|e] u], (m' w') as [[a'|e'] u']; simpl in *;
    try discriminate.
  - injection Hr as ->. now apply Hk.
  - injection Hr as ->. split; [reflexivity | exact Ha1].
Qed.

Lemma sim_for_each {A} (l : list A) (body body' : A -> M unit) :
  (forall x, sim (body x) (body' x)) -> sim (for_each l body) (for_each l body').
Proof.
  intros Hb. induction l as [|x l IH]; simpl.
  - apply sim_ret.
  - apply sim_bind; [apply Hb | intros _; exact IH].
Qed.

Lemma sim_if {A} (b : bool) (m1 m1' m2 m2' : M A) :
  sim m1 m1' -> sim m2 m2' ->
  sim (if b then m1 else m2) (if b then m1' else m2').
Proof. now destruct b. Qed.

Lemma sim_print line line' : sim (print line) (print line').
Proof. intros w w' H. now split. Qed.

Lemma sim_execute service req : sim (execute service req) (execute service req).
Proof.
  intros w w' (Hf & Hq). unfold execute. simpl. rewrite Hq. repeat split.
  exact Hf.
Qed.

Lemma sim_os_path_exists path : sim (os_path_exists path) (os_path_exists path).
Proof. intros w w' (Hf & Hq). unfold os_path_exists. simpl. now rewrite Hf. Qed.

Lemma sim_check_region_scan available r :
  sim (check_region_scan available r) (check_region_scan available r).
Proof.
  induction available as [|entry rest IH]; simpl.
  - apply sim_ret.
  - apply sim_bind; [apply sim_lift|]. intros name.
    apply sim_if; [apply sim_ret | exact IH].
Qed.

Lemma sim_check_region service p r :
  sim (check_region service p r) (check_region service p r).
Proof.
  unfold check_region.
  apply sim_bind; [apply sim_execute | intros response].
  apply sim_bind; [apply sim_lift | intros items].
  apply sim_bind; [apply sim_lift | intros available].
  apply sim_check_region_scan.
Qed.

Lemma sim_get_network_info service p r :
  sim (get_network_info service p r) (get_network_info service p r).
Proof.
  unfold get_network_info.
  repeat (apply sim_bind; [apply sim_execute | intros ?]). apply sim_ret.
Qed.

Section Console.

Context {Credentials : Type}.
Variable google_auth_default : Result Credentials.
Variable discovery_build : Credentials -> Result Service.
Variable json_dumps : json -> string.
Variable os_permits : gmap string node -> string -> bool.
Variable os_leaves : gmap string node -> string -> option nat.

Lemma sim_os_makedirs path :
  sim (os_makedirs os_permits path) (os_makedirs os_permits path).
Proof.
  intros w w' (Hf & Hq). unfold os_makedirs. rewrite Hf.
  destruct (fs w' !! path); [now split|].
  destruct (os_permits (fs w') path); simpl; [|now split].
  repeat split; simpl; congruence.
Qed.

Lemma sim_write_json path value :
  sim (write_json json_dumps os_permits os_leaves path value)
      (write_json json_dumps os_permits os_leaves path value).
Proof.
  intros w w' (Hf & Hq). unfold write_json. rewrite Hf.
  destruct (fs w' !! path) as [[|content]|];
    try (now split);
    (destruct (os_permits (fs w') path); simpl;
     [|destruct (os_leaves (fs w') path); simpl; [|now split]];
     repeat split; simpl; congruence).
Qed.

Lemma sim_main_report info : sim (main_report json_dumps info) (ret tt).
Proof. intros w w' H. rewrite main_report_run. now split. Qed.

Lemma sim_main_persist p r info :
  sim (main_persist json_dumps os_permits os_leaves p r info)
      (main_persist json_dumps os_permits os_leaves p r info).
Proof.
  unfold main_persist. apply sim_for_each. intros [key value].
  apply sim_bind; [apply sim_os_path_exists | intros there].
  apply sim_if; [apply sim_write_json | apply sim_print].
Qed.

Lemma sim_main_pair service p r :
  sim (main_pair json_dumps os_permits os_leaves service true p r)
      (main_pair json_dumps os_permits os_leaves service false p r).
Proof.
  unfold main_pair.
  apply sim_bind; [apply sim_check_region | intros valid].
  apply sim_bind.
  { apply sim_if; [|apply sim_ret].
    apply sim_bind; [apply sim_print | intros _; apply sim_raise]. }
  intros _. apply sim_bind; [apply sim_get_network_info | intros info].
  apply sim_bind; [apply sim_main_report | intros _].
  apply sim_bind; [apply sim_os_path_exists | intros there].
  apply sim_bind.
  { apply sim_if; [apply sim_os_makedirs | apply sim_ret]. }
  intros _. apply sim_main_persist.
Qed.

(** X9: [--verbose] changes the console and nothing else.  The same command
    line with and without the flag, started in the same world, ends the
    same way (the same return or the same exception, so the same status),
    with the same files holding the same contents and after the same
    requests. *)
Theorem verbose_changes_only_the_console projects regions_ w :
  fst (main Credentials google_auth_default discovery_build json_dumps
         os_permits os_leaves (mkArgs projects regions_ true) w)
  = fst (main Credentials google_auth_default discovery_build json_dumps
           os_permits os_leaves (mkArgs projects regions_ false) w)
  /\ fs (snd (main Credentials google_auth_default discovery_build json_dumps
                os_permits os_leaves (mkArgs projects regions_ true) w))
     = fs (snd (main Credentials google_auth_default discovery_build
                  json_dumps os_permits os_leaves (mkArgs projects regions_ false) w))
  /\ requests (snd (main Credentials google_auth_default discovery_build
                      json_dumps os_permits os_leaves (mkArgs projects regions_ true) w))
     = requests (snd (main Credentials google_auth_default discovery_build
                        json_dumps os_permits os_leaves
                        (mkArgs projects regions_ false) w)).
Proof.
  assert (H : sim (main Credentials google_auth_default discovery_build
                     json_dumps os_permits os_leaves (mkArgs projects regions_ true))
                  (main Credentials google_auth_default discovery_build
                     json_dumps os_permits os_leaves (mkArgs projects regions_ false))).
  { unfold main, get_authenticated_service. cbn [project region verbose].
    apply sim_bind.
    { apply sim_bind; [apply sim_lift | intros c].
      apply sim_bind; [apply sim_lift | intros service]. apply sim_ret. }
    intros service. apply sim_for_each. intros p.
    apply sim_for_each. intros r. apply sim_main_pair. }
  destruct (H w w) as (Hr & Hf & Hq); [now split|]. auto.
Qed.

End Console.

(** ** File names *)

Lemma string_app_assoc s t u : (s +:+ t) +:+ u = s +:+ t +:+ u.
Proof.
  induction s as [|c s IH]; [reflexivity|].
  change (String c ((s +:+ t) +:+ u) = String c (s +:+ t +:+ u)).
  now rewrite IH.
Qed.

Lemma app_underscore_inj s1 s2 t1 t2 :
  no_underscore s1 = true -> no_underscore s2 = true ->
  s1 +:+ String "_" t1 = s2 +:+ String "_" t2 ->
  s1 = s2 /\ t1 = t2.
Proof.
  revert s2. induction s1 as [|c s1 IH]; intros [|c' s2] H1 H2 H; simpl in *.
  - injection H as ->. now split.
  - injection H as <- _. discriminate.
  - injection H as -> _. discriminate.
  - injection H as -> H.
    apply andb_prop in H1 as (_ & H1). apply andb_prop in H2 as (_ & H2).
    destruct (IH s2 H1 H2 H) as (-> & ->). now split.
Qed.

(** X11: for project and region identifiers without an underscore, the file
    name tells the pair and the key: two files of the script coincide only
    when project, region and key all do, so no pair finds its files taken by
    another.  With underscores it can happen: project [p_q] with region [r]
    and project [p] with region [q_r] share every file name. *)
Theorem file_names_tell_the_pair :
  (forall p1 r1 key1 p2 r2 key2,
      no_underscore p1 = true -> no_underscore r1 = true ->
      no_underscore p2 = true -> no_underscore r2 = true ->
      output_file_of p1 r1 key1 = output_file_of p2 r2 key2 ->
      p1 = p2 /\ r1 = r2 /\ key1 = key2)
  /\ (forall p q r key,
        output_file_of (p +:+ "_" +:+ q) r key
        = output_file_of p (q +:+ "_" +:+ r) key).
Proof.
  split.
  - intros p1 r1 key1 p2 r2 key2 Hp1 Hr1 Hp2 Hr2 H.
    assert (Hb : p1 +:+ "_" +:+ r1 +:+ "_" +:+ key1 +:+ ".json"
                 = p2 +:+ "_" +:+ r2 +:+ "_" +:+ key2 +:+ ".json").
    { destruct (output_file_of_cases p1 r1 key1) as [[E1 H1]|[E1 H1]],
               (output_file_of_cases p2 r2 key2) as [[E2 H2]|[E2 H2]];
        rewrite H1, H2 in H.
      - exact H.
      - destruct p1 as [|c p1]; [discriminate|]. simpl in E1.
        apply Ascii.eqb_eq in E1 as ->. discriminate.
      - destruct p2 as [|c p2]; [discriminate|]. simpl in E2.
        apply Ascii.eqb_eq in E2 as ->. discriminate.
      - now apply String.app_inj in H. }
    apply app_underscore_inj in Hb as (-> & Hb); [|assumption..].
    apply app_underscore_inj in Hb as (-> & Hb); [|assumption..].
    apply string_app_cancel_r in Hb. auto.
  - intros p q r key.
    assert (E : (p +:+ "_" +:+ q) +:+ "_" +:+ r +:+ "_" +:+ key +:+ ".json"
                = p +:+ "_" +:+ (q +:+ "_" +:+ r) +:+ "_" +:+ key +:+ ".json").
    { rewrite (string_app_assoc p), (string_app_assoc q). reflexivity. }
    unfold output_file_of. now rewrite E.
Qed.

(** ** The demo project again *)

Lemma no_client_no_effect_witness :
  main unit (Raise DefaultCredentialsError) (fun _ => Ok Demo.service)
       Demo.render Demo.permit_all Demo.leave_nothing Demo.args_ok Demo.fresh
  = (Raise DefaultCredentialsError, Demo.fresh).
Proof.
  apply (no_client_no_effect (Raise DefaultCredentialsError)
           (fun _ : unit => Ok Demo.service) Demo.render Demo.permit_all Demo.leave_nothing
           Demo.args_ok Demo.fresh DefaultCredentialsError).
  left. reflexivity.
Defined.

Lemma outcome_eta {A} (x : Result A * World) (a : A) :
  fst x = Ok a -> x = (Ok a, snd x).
Proof. destruct x as [res w]. simpl. now intros ->. Qed.

Lemma normal_run_requests_witness :
  requests (snd (main unit (Ok tt) (fun _ => Ok Demo.service) Demo.render
                   Demo.permit_all Demo.leave_nothing Cases.args_two_regions Demo.fresh))
  = requests Demo.fresh
    ++ flat_map pair_requests (pairs_of Cases.args_two_regions)
  /\ length (requests (snd (main unit (Ok tt) (fun _ => Ok Demo.service)
                              Demo.render Demo.permit_all Demo.leave_nothing
                              Cases.args_two_regions Demo.fresh)))
     = length (requests Demo.fresh)
       + 10 * (length (str_split "," (project Cases.args_two_regions))
               * length (str_split "," (region Cases.args_two_regions))).
Proof.
  apply (normal_run_requests (Ok tt) (fun _ => Ok Demo.service) Demo.render
           Demo.permit_all Demo.leave_nothing Cases.args_two_regions Demo.fresh
           (snd (main unit (Ok tt) (fun _ => Ok Demo.service) Demo.render
                   Demo.permit_all Demo.leave_nothing Cases.args_two_regions Demo.fresh))).
  apply (outcome_eta (main unit (Ok tt) (fun _ => Ok Demo.service) Demo.render
                        Demo.permit_all Demo.leave_nothing Cases.args_two_regions Demo.fresh)).
  vm_compute. reflexivity.
Defined.

Lemma run_completes_witness :
  exists w',
    main unit (Ok tt) (fun _ => Ok Demo.service) Demo.render Demo.permit_all Demo.leave_nothing
         Cases.args_two_regions Demo.fresh
    = (Ok tt, w')
    /\ exit_status
         (fst (main unit (Ok tt) (fun _ => Ok Demo.service) Demo.render
                 Demo.permit_all Demo.leave_nothing Cases.args_two_regions Demo.fresh)) = 0%Z
    /\ (forall p r key,
          In (p, r) (pairs_of Cases.args_two_regions) ->
          In key network_info_keys ->
          is_Some (fs w' !! output_file_of p r key)).
Proof.
  apply (run_completes (Ok tt) (fun _ => Ok Demo.service) Demo.render
           Demo.permit_all Demo.leave_nothing Cases.args_two_regions Demo.fresh tt Demo.service).
  - reflexivity.
  - reflexivity.
  - reflexivity.
  - intros n p r Hin.
    exists Demo.region_list, [JStr "us-central1"; JStr "europe-west1"].
    split; [|split; [reflexivity|]].
    + destruct Hin as [H|[H|[]]]; injection H as <- <-; reflexivity.
    + destruct Hin as [H|[H|[]]]; injection H as <- <-;
        [now left | right; now left].
  - intros n p r req Hin Hreq.
    destruct Hin as [H|[H|[]]]; injection H as <- <-; simpl in Hreq;
      repeat (destruct Hreq as [<-|Hreq]; [eexists; reflexivity|]);
      contradiction.
Defined.

Lemma run_stops_at_first_failing_pair_witness :
  main unit (Ok tt) (fun _ => Ok Demo.service) Demo.render Demo.permit_all Demo.leave_nothing
       Cases.args_late_moon Demo.fresh
  = (Raise (SystemExit 1),
     mkWorld
       (fs (snd (main_pairs Demo.render Demo.permit_all Demo.leave_nothing Demo.service
                   (verbose Cases.args_late_moon)
                   [("demo-proj", "us-central1")] Demo.fresh)))
       (stdout (snd (main_pairs Demo.render Demo.permit_all Demo.leave_nothing Demo.service
                       (verbose Cases.args_late_moon)
                       [("demo-proj", "us-central1")] Demo.fresh))
        ++ ["The region " +:+ "moon-base1" +:+ " is not valid."])
       (requests (snd (main_pairs Demo.render Demo.permit_all Demo.leave_nothing Demo.service
                         (verbose Cases.args_late_moon)
                         [("demo-proj", "us-central1")] Demo.fresh))
        ++ [List_ regions "demo-proj" None])).
Proof.
  destruct (run_stops_at_first_failing_pair (Ok tt) (fun _ => Ok Demo.service)
              Demo.render Demo.permit_all Demo.leave_nothing Cases.args_late_moon Demo.fresh tt
              Demo.service [("demo-proj", "us-central1")] "demo-proj"
              "moon-base1" []
              (snd (main_pairs Demo.render Demo.permit_all Demo.leave_nothing Demo.service
                      (verbose Cases.args_late_moon)
                      [("demo-proj", "us-central1")] Demo.fresh)))
    as (_ & Hinvalid & _).
  - reflexivity.
  - reflexivity.
  - vm_compute. reflexivity.
  - apply (outcome_eta (main_pairs Demo.render Demo.permit_all Demo.leave_nothing Demo.service
                          (verbose Cases.args_late_moon)
                          [("demo-proj", "us-central1")] Demo.fresh)).
    vm_compute. reflexivity.
  - apply (Hinvalid Demo.region_list [JStr "us-central1"; JStr "europe-west1"]).
    + vm_compute. reflexivity.
    + reflexivity.
    + intros [H|[H|[]]]; discriminate.
Defined.

Lemma pair_prints_notices_for_old_files_witness :
  stdout (snd (main_pair Demo.render Demo.permit_all Demo.leave_nothing Demo.service false
                 "demo-proj" "us-central1"
                 (snd (Demo.run Demo.args_quiet Demo.fresh))))
  = stdout (snd (Demo.run Demo.args_quiet Demo.fresh))
    ++ []
    ++ map (fun key => "File " +:+ output_file_of "demo-proj" "us-central1" key
                       +:+ " already exists.")
         (List.filter
            (fun key => path_exists
                          (fs (snd (Demo.run Demo.args_quiet Demo.fresh)))
                          (output_file_of "demo-proj" "us-central1" key))
            network_info_keys).
Proof.
  apply (pair_prints_notices_for_old_files Demo.render Demo.permit_all Demo.leave_nothing
           Demo.service false "demo-proj" "us-central1"
           (snd (Demo.run Demo.args_quiet Demo.fresh))
           (snd (check_region Demo.service "demo-proj" "us-central1"
                   (snd (Demo.run Demo.args_quiet Demo.fresh))))
           (network_info_of "demo-proj" "us-central1"
              (repeat Demo.no_items 9))
           (snd (get_network_info Demo.service "demo-proj" "us-central1"
                   (snd (check_region Demo.service "demo-proj" "us-central1"
                           (snd (Demo.run Demo.args_quiet Demo.fresh))))))
           (snd (main_pair Demo.render Demo.permit_all Demo.leave_nothing Demo.service false
                   "demo-proj" "us-central1"
                   (snd (Demo.run Demo.args_quiet Demo.fresh))))).
  - apply (outcome_eta (check_region Demo.service "demo-proj" "us-central1"
                          (snd (Demo.run Demo.args_quiet Demo.fresh)))).
    vm_compute. reflexivity.
  - apply (outcome_eta
             (get_network_info Demo.service "demo-proj" "us-central1"
                (snd (check_region Demo.service "demo-proj" "us-central1"
                        (snd (Demo.run Demo.args_quiet Demo.fresh)))))).
    vm_compute. reflexivity.
  - apply (outcome_eta
             (main_pair Demo.render Demo.permit_all Demo.leave_nothing Demo.service false
                "demo-proj" "us-central1"
                (snd (Demo.run Demo.args_quiet Demo.fresh)))).
    vm_compute. reflexivity.
Defined.

Lemma file_names_tell_the_pair_witness :
  "demo-proj" = "demo-proj" /\ "us-central1" = "us-central1"
  /\ "vpcs" = "vpcs".
Proof.
  destruct file_names_tell_the_pair as (Htell & _).
  apply (Htell "demo-proj" "us-central1" "vpcs" "demo-proj" "us-central1"
           "vpcs"); reflexivity.
Defined.

(** ** Writes that fail, and how many pairs there are *)

Lemma str_split_length sep s :
  length (str_split sep s) = S (count_char sep s).
Proof.
  induction s as [|c s IH]; [reflexivity|]. simpl.
  destruct (Ascii.eqb c sep); simpl.
  - now rewrite IH.
  - destruct (str_split sep s) as [|piece pieces]; [discriminate|].
    simpl in *. exact IH.
Qed.

Lemma str_split_pieces sep s :
  Forall (fun piece => count_char sep piece = 0) (str_split sep s).
Proof.
  induction s as [|c s IH]; simpl; [repeat constructor|].
  destruct (Ascii.eqb c sep) eqn:E.
  - constructor; [reflexivity | exact IH].
  - destruct (str_split sep s) as [|piece pieces].
    { repeat constructor. simpl. now rewrite E. }
    pose proof (Forall_inv IH) as Hp. pose proof (Forall_inv_tail IH) as Hrest.
    constructor; [|exact Hrest]. simpl. now rewrite E.
Qed.

Section Edges.

Context {Credentials : Type}.
Variable google_auth_default : Result Credentials.
Variable discovery_build : Credentials -> Result Service.
Variable json_dumps : json -> string.
Variable os_permits : gmap string node -> string -> bool.
Variable os_leaves : gmap string node -> string -> option nat.

Lemma str_prefix_app n s : exists t, s = str_prefix n s +:+ t.
Proof.
  revert s. induction n as [|n IH]; intros s; [now exists s|].
  destruct s as [|c s]; [now exists EmptyString|].
  destruct (IH s) as [t Ht]. exists t.
  change (String c s = String c (str_prefix n s +:+ t)). now rewrite <- Ht.
Qed.

(** X12: a write that fails ends the loop of the persister with [OSError]
    for that path, and nothing is taken back.  The files of the keys before
    it are in place; the path itself is still absent when the failure came
    at [open], and holds the part of the JSON text that was written when it
    came after; the keys after it get neither a file nor a notice.  A file
    left in part is a file that exists: a later run prints the notice for
    it and leaves it as it is. *)
Theorem failed_write_is_not_rolled_back p r pre key value post w w1 :
  main_persist json_dumps os_permits os_leaves p r pre w = (Ok tt, w1) ->
  fs w1 !! output_file_of p r key = None ->
  os_permits (fs w1) (output_file_of p r key) = false ->
  main_persist json_dumps os_permits os_leaves p r
    (pre ++ (key, value) :: post) w
  = (Raise (OSError (output_file_of p r key)),
     after_failed_write json_dumps os_leaves (output_file_of p r key) value w1)
  /\ fs w ⊆ fs w1
  /\ (forall k, In k (map fst pre) ->
                is_Some (fs w1 !! output_file_of p r k))
  /\ (os_leaves (fs w1) (output_file_of p r key) = None ->
      after_failed_write json_dumps os_leaves (output_file_of p r key) value w1
      = w1)
  /\ (forall n,
        os_leaves (fs w1) (output_file_of p r key) = Some n ->
        fs (after_failed_write json_dumps os_leaves (output_file_of p r key)
              value w1)
        = <[output_file_of p r key := File (str_prefix n (json_dumps value))]>
            (fs w1)
        /\ (exists t, json_dumps value = str_prefix n (json_dumps value) +:+ t)
        /\ (forall value' rest w2,
              fs (after_failed_write json_dumps os_leaves
                    (output_file_of p r key) value w1) ⊆ fs w2 ->
              main_persist json_dumps os_permits os_leaves p r
                ((key, value') :: rest) w2
              = main_persist json_dumps os_permits os_leaves p r rest
                  (mkWorld (fs w2)
                     (stdout w2 ++ [exists_notice (output_file_of p r key)])
                     (requests w2))
              /\ fs w2 !! output_file_of p r key
                 = Some (File (str_prefix n (json_dumps value))))).
Proof.
  intros Hpre Hnone Hrefused.
  destruct (main_persist_spec json_dumps os_permits os_leaves p r pre w _ _ Hpre)
    as (Hsub & _ & _ & _ & Hok).
  split; [|split; [exact Hsub | split; [now apply Hok | split]]].
  - unfold main_persist in *. rewrite for_each_app.
    rewrite (bind_ok _ _ _ _ _ Hpre).
    now apply (main_persist_cons_refused json_dumps os_permits os_leaves).
  - intros Hn. unfold after_failed_write. now rewrite Hn.
  - intros n Hn. unfold after_failed_write. rewrite Hn. cbn [fs].
    split; [reflexivity|]. split; [apply str_prefix_app|].
    intros value' rest w2 Hsub2.
    assert (Hthere : fs w2 !! output_file_of p r key
                     = Some (File (str_prefix n (json_dumps value)))).
    { eapply lookup_weaken; [|exact Hsub2]. apply lookup_insert_eq. }
    split; [|exact Hthere].
    now apply (main_persist_cons_exists json_dumps os_permits os_leaves)
      with (n := File (str_prefix n (json_dumps value))).
Qed.

Lemma main_pair_first_request service vb p r w :
  exists rest,
    requests (snd (main_pair json_dumps os_permits os_leaves service vb p r w))
    = requests w ++ List_ regions p None :: rest.
Proof.
  pose proof (check_region_first_request service p r w) as Q1.
  destruct (check_region service p r w) as [[[|]|e] w1] eqn:Hc; simpl in Q1.
  - destruct (get_network_info service p r w1) as [[info|e] w2] eqn:Hg.
    + destruct (collected_same_fs _ _ _ _ _ _ _ Hc Hg) as (_ & _ & Q2).
      rewrite (main_pair_valid _ _ _ _ vb _ _ _ _ _ _ Hc Hg). cbv zeta.
      pose proof (requests_after_report json_dumps vb info w2) as Q3.
      set (w3 := after_report json_dumps vb info w2) in *.
      exists (network_requests p r). rewrite <- Q2, <- Q3.
      destruct (fs w3 !! output_directory).
      * destruct (main_persist json_dumps os_permits os_leaves p r info w3)
          as [res w'] eqn:Hp.
        now apply main_persist_spec in Hp as (_ & Hq & _).
      * destruct (os_permits (fs w3) output_directory); [|reflexivity].
        destruct (main_persist json_dumps os_permits os_leaves p r info _)
          as [res w'] eqn:Hp.
        now apply main_persist_spec in Hp as (_ & Hq & _).
    + rewrite (main_pair_get_raise _ _ _ _ _ _ _ _ _ _ _ Hc Hg).
      destruct (get_network_info_only_requests service p r w1)
        as (_ & _ & [l Hl]).
      rewrite Hg in Hl. simpl in *. exists l. now rewrite Hl, Q1, <- app_assoc.
  - rewrite (main_pair_invalid _ _ _ _ _ _ _ _ _ Hc). exists []. exact Q1.
  - rewrite (main_pair_check_raise _ _ _ _ _ _ _ _ _ _ Hc). exists []. exact Q1.
Qed.

(** X13: the number of pairs is settled by the commas alone: one more
    project than there are commas in [--project], one more region than
    there are commas in [--region], every project with every region, and
    no identifier holds a comma.  There is always at least one pair, also
    for an empty argument, so a run that has its client always sends the
    region listing of its first project. *)
Theorem pairs_are_counted_by_commas :
  (forall args,
      length (pairs_of args)
      = S (count_char "," (project args)) * S (count_char "," (region args)))
  /\ (forall args p r,
        In (p, r) (pairs_of args) ->
        count_char "," p = 0 /\ count_char "," r = 0)
  /\ (forall args w c service,
        google_auth_default = Ok c ->
        discovery_build c = Ok service ->
        exists rest,
          requests (snd (main Credentials google_auth_default discovery_build
                           json_dumps os_permits os_leaves args w))
          = requests w ++ List_ regions (first_project args) None :: rest).
Proof.
  split; [|split].
  - intros args. unfold pairs_of. now rewrite length_prod, !str_split_length.
  - intros args p r Hin. unfold pairs_of in Hin. apply in_prod_iff in Hin.
    destruct Hin as (Hp & Hr).
    pose proof (str_split_pieces "," (project args)) as Fp.
    pose proof (str_split_pieces "," (region args)) as Fr.
    rewrite List.Forall_forall in Fp, Fr. split; [now apply Fp | now apply Fr].
  - intros args w c service Hc Hb.
    rewrite (main_as_pairs _ _ _ _ _ args w c service Hc Hb).
    unfold pairs_of, first_project.
    destruct (str_split_hd "," (project args)) as [ps ->].
    destruct (str_split_hd "," (region args)) as [rs ->].
    cbn [list_prod map app hd]. unfold main_pairs. cbn [for_each fst snd].
    destruct (main_pair_first_request service (verbose args)
                (hd EmptyString (str_split "," (project args)))
                (hd EmptyString (str_split "," (region args))) w)
      as [rest Hrest].
    unfold bind.
    destruct (main_pair json_dumps os_permits os_leaves service (verbose args) _ _ w)
      as [[[]|e] w1]; simpl in Hrest.
    + match goal with |- context [for_each ?l ?body w1] =>
        destruct (keeps_for_each extends extends_refl extends_trans l body
                    (fun pair => main_pair_extends json_dumps os_permits os_leaves
                                   service (verbose args) (fst pair) (snd pair))
                    w1) as (_ & _ & [more Hmore])
      end.
      exists (rest ++ more). rewrite Hmore, Hrest, <- app_assoc. reflexivity.
    + exists rest. exact Hrest.
Qed.

End Edges.

Lemma failed_write_is_not_rolled_back_witness :
  main_persist Demo.render Cases.refuse_routes Cases.leave_five "demo-proj"
    "us-central1"
    ([ ("project", JStr "demo-proj"); ("region", JStr "us-central1");
       ("vpcs", Demo.no_items); ("subnetworks", Demo.no_items) ]
     ++ ("routes", Demo.no_items) :: [("interconnects", Demo.no_items)])
    Demo.fresh
  = (Raise (OSError (output_file_of "demo-proj" "us-central1" "routes")),
     after_failed_write Demo.render Cases.leave_five
       (output_file_of "demo-proj" "us-central1" "routes") Demo.no_items
       (snd (main_persist Demo.render Cases.refuse_routes Cases.leave_five
               "demo-proj" "us-central1"
               [ ("project", JStr "demo-proj"); ("region", JStr "us-central1");
                 ("vpcs", Demo.no_items); ("subnetworks", Demo.no_items) ]
               Demo.fresh))).
Proof.
  destruct (failed_write_is_not_rolled_back Demo.render Cases.refuse_routes
              Cases.leave_five "demo-proj" "us-central1"
              [ ("project", JStr "demo-proj"); ("region", JStr "us-central1");
                ("vpcs", Demo.no_items); ("subnetworks", Demo.no_items) ]
              "routes" Demo.no_items [("interconnects", Demo.no_items)]
              Demo.fresh
              (snd (main_persist Demo.render Cases.refuse_routes
                      Cases.leave_five "demo-proj" "us-central1"
                      [ ("project", JStr "demo-proj");
                        ("region", JStr "us-central1");
                        ("vpcs", Demo.no_items);
                        ("subnetworks", Demo.no_items) ]
                      Demo.fresh)))
    as (Hraise & _).
  - apply (outcome_eta
             (main_persist Demo.render Cases.refuse_routes Cases.leave_five
                "demo-proj" "us-central1"
                [ ("project", JStr "demo-proj"); ("region", JStr "us-central1");
                  ("vpcs", Demo.no_items); ("subnetworks", Demo.no_items) ]
                Demo.fresh)).
    vm_compute. reflexivity.
  - vm_compute. reflexivity.
  - vm_compute. reflexivity.
  - exact Hraise.
Defined.

Lemma pairs_are_counted_by_commas_witness :
  exists rest,
    requests (snd (main unit (Ok tt) (fun _ => Ok Demo.service) Demo.render
                     Demo.permit_all Demo.leave_nothing (mkArgs EmptyString EmptyString false)
                     Demo.fresh))
    = requests Demo.fresh
      ++ List_ regions (first_project (mkArgs EmptyString EmptyString false))
           None
         :: rest.
Proof.
  destruct (pairs_are_counted_by_commas (Ok tt) (fun _ => Ok Demo.service)
              Demo.render Demo.permit_all Demo.leave_nothing) as (_ & _ & Hfirst).
  apply (Hfirst (mkArgs EmptyString EmptyString false) Demo.fresh tt
           Demo.service); reflexivity.
Defined.

(** ** Empty identifiers in the queue *)

Section Queue.

Context {Credentials : Type}.
Variable google_auth_default : Result Credentials.
Variable discovery_build : Credentials -> Result Service.
Variable json_dumps : json -> string.
Variable os_permits : gmap string node -> string -> bool.
Variable os_leaves : gmap string node -> string -> option nat.

(** The run once the pairs before one of its pairs are done. *)
Lemma main_pairs_reach service vb pre p r post w w1 :
  main_pairs json_dumps os_permits os_leaves service vb pre w = (Ok tt, w1) ->
  main_pairs json_dumps os_permits os_leaves service vb
    (pre ++ (p, r) :: post) w
  = bind (main_pair json_dumps os_permits os_leaves service vb p r)
         (fun _ => main_pairs json_dumps os_permits os_leaves service vb post)
         w1.
Proof.
  intros Hpre. unfold main_pairs in *. rewrite for_each_app.
  now rewrite (bind_ok _ _ _ _ _ Hpre).
Qed.

Lemma main_pairs_cons_requests service vb p r post w :
  exists rest,
    requests
      (snd (bind (main_pair json_dumps os_permits os_leaves service vb p r)
              (fun _ => main_pairs json_dumps os_permits os_leaves service vb
                          post) w))
    = requests w ++ List_ regions p None :: rest.
Proof.
  destruct (main_pair_first_request json_dumps os_permits os_leaves service vb
              p r w) as [rest Hrest].
  unfold bind.
  destruct (main_pair json_dumps os_permits os_leaves service vb p r w)
    as [[[]|e] w1]; simpl in Hrest.
  - destruct (pairs_extends json_dumps os_permits os_leaves service vb post w1)
      as (_ & _ & [more Hmore]).
    exists (rest ++ more). rewrite Hmore, Hrest, <- app_assoc. reflexivity.
  - exists rest. exact Hrest.
Qed.

(** C10 (as amended): [str.split] keeps every piece, the empty ones too
    (joining the pieces with commas gives the argument back), so an argument
    with two commas in a row or a comma at its end has an empty piece;
    [main] queues every pair of a project piece and a region piece, none
    filtered.  A queued pair is handed to [check_region] as it is, empty
    strings included, when the run reaches it, that is when every pair
    before it has been processed to the end: then the listing request for
    its project is sent, and what [check_region] makes of the pair decides
    the run, an exception of [check_region] ending it and a region found
    not listed being reported by its literal text before [sys.exit(1)]. *)
Theorem empty_identifiers_are_processed :
  (forall s, str_join "," (str_split "," s) = s)
  /\ (forall u v, In EmptyString (str_split "," (u +:+ ",," +:+ v)))
  /\ (forall u, In EmptyString (str_split "," (u +:+ ",")))
  /\ str_split "," "a,,b" = ["a"; EmptyString; "b"]
  /\ (forall args p r,
        In (p, r) (pairs_of args)
        <-> In p (str_split "," (project args))
            /\ In r (str_split "," (region args)))
  /\ (forall args w c service,
        google_auth_default = Ok c ->
        discovery_build c = Ok service ->
        main Credentials google_auth_default discovery_build json_dumps
             os_permits os_leaves args w
        = main_pairs json_dumps os_permits os_leaves service (verbose args)
            (pairs_of args) w)
  /\ (forall args w c service pre p r post w1,
        google_auth_default = Ok c ->
        discovery_build c = Ok service ->
        pairs_of args = pre ++ (p, r) :: post ->
        main_pairs json_dumps os_permits os_leaves service (verbose args) pre w
        = (Ok tt, w1) ->
        (exists rest,
            requests (snd (main Credentials google_auth_default
                             discovery_build json_dumps os_permits os_leaves
                             args w))
            = requests w1 ++ List_ regions p None :: rest)
        /\ (forall e w2,
              check_region service p r w1 = (Raise e, w2) ->
              main Credentials google_auth_default discovery_build json_dumps
                   os_permits os_leaves args w
              = (Raise e, w2))
        /\ (forall w2,
              check_region service p r w1 = (Ok false, w2) ->
              main Credentials google_auth_default discovery_build json_dumps
                   os_permits os_leaves args w
              = (Raise (SystemExit 1),
                 mkWorld (fs w2)
                   (stdout w2 ++ ["The region " +:+ r +:+ " is not valid."])
                   (requests w2)))).
Proof.
  split; [apply str_join_split|].
  split; [intros u v; apply (str_split_consecutive "," u v)|].
  split; [intros u; apply (str_split_trailing "," u)|].
  split; [reflexivity|].
  split; [intros args p r; apply in_prod_iff|].
  split; [intros args w c service Hc Hb; now apply main_as_pairs with (c := c)|].
  intros args w c service pre p r post w1 Hc Hb Hpairs Hpre.
  rewrite (main_as_pairs _ _ _ _ _ args w c service Hc Hb), Hpairs.
  rewrite (main_pairs_reach _ _ _ _ _ _ _ _ Hpre).
  split; [apply main_pairs_cons_requests|]. split.
  - intros e w2 Hcheck. apply bind_raise.
    now apply main_pair_check_raise.
  - intros w2 Hcheck. apply bind_raise.
    now apply main_pair_invalid.
Qed.

End Queue.

Lemma empty_identifiers_are_processed_witness :
  main unit (Ok tt) (fun _ => Ok Demo.service) Demo.render Demo.permit_all
       Demo.leave_nothing (mkArgs "demo-proj" "us-central1,," false) Demo.fresh
  = (Raise (SystemExit 1),
     mkWorld
       (fs (snd (check_region Demo.service "demo-proj" EmptyString
                   (snd (main_pairs Demo.render Demo.permit_all
                           Demo.leave_nothing Demo.service
                           (verbose (mkArgs "demo-proj" "us-central1,," false))
                           [("demo-proj", "us-central1")] Demo.fresh)))))
       (stdout (snd (check_region Demo.service "demo-proj" EmptyString
                       (snd (main_pairs Demo.render Demo.permit_all
                               Demo.leave_nothing Demo.service
                               (verbose
                                  (mkArgs "demo-proj" "us-central1,," false))
                               [("demo-proj", "us-central1")] Demo.fresh))))
        ++ ["The region " +:+ EmptyString +:+ " is not valid."])
       (requests (snd (check_region Demo.service "demo-proj" EmptyString
                         (snd (main_pairs Demo.render Demo.permit_all
                                 Demo.leave_nothing Demo.service
                                 (verbose
                                    (mkArgs "demo-proj" "us-central1,," false))
                                 [("demo-proj", "us-central1")]
                                 Demo.fresh)))))).
Proof.
  destruct (empty_identifiers_are_processed (Ok tt) (fun _ => Ok Demo.service)
              Demo.render Demo.permit_all Demo.leave_nothing)
    as (_ & _ & _ & _ & _ & _ & Hreach).
  destruct (Hreach (mkArgs "demo-proj" "us-central1,," false) Demo.fresh tt
              Demo.service [("demo-proj", "us-central1")] "demo-proj"
              EmptyString [("demo-proj", EmptyString)]
              (snd (main_pairs Demo.render Demo.permit_all Demo.leave_nothing
                      Demo.service
                      (verbose (mkArgs "demo-proj" "us-central1,," false))
                      [("demo-proj", "us-central1")] Demo.fresh)))
    as (_ & _ & Hinvalid).
  - reflexivity.
  - reflexivity.
  - vm_compute. reflexivity.
  - apply (outcome_eta
             (main_pairs Demo.render Demo.permit_all Demo.leave_nothing
                Demo.service
                (verbose (mkArgs "demo-proj" "us-central1,," false))
                [("demo-proj", "us-central1")] Demo.fresh)).
    vm_compute. reflexivity.
  - apply Hinvalid.
    apply (outcome_eta
             (check_region Demo.service "demo-proj" EmptyString
                (snd (main_pairs Demo.render Demo.permit_all
                        Demo.leave_nothing Demo.service
                        (verbose (mkArgs "demo-proj" "us-central1,," false))
                        [("demo-proj", "us-central1")] Demo.fresh)))).
    vm_compute. reflexivity.
Defined.

(** C10 as stated fails: the project argument [nope,,demo-proj] has an
    empty piece, but the run ends at its first pair, whose project is
    unknown, with one request sent: the empty project is never handed to
    the validation. *)
Lemma empty_project_never_reached :
  In EmptyString (str_split "," "nope,,demo-proj")
  /\ fst (Demo.run (mkArgs "nope,,demo-proj" "us-central1" false) Demo.fresh)
     = Raise (HttpError "notFound")
  /\ requests (snd (Demo.run (mkArgs "nope,,demo-proj" "us-central1" false)
                      Demo.fresh))
     = [List_ regions "nope" None]
  /\ List.existsb
       (fun req => String.eqb (req_project req) EmptyString)
       (requests (snd (Demo.run (mkArgs "nope,,demo-proj" "us-central1" false)
                         Demo.fresh)))
     = false.
Proof.
  split; [right; now left|].
  split; [vm_compute; reflexivity|].
  split; vm_compute; reflexivity.
Qed.

(** C3 as stated fails: the listing of project [bare-proj] has no [items],
    so it names no region at all, yet the run on it prints no message: it
    ends with [KeyError] from [check_region]. *)
Lemma unlisted_region_without_message :
  Demo.service 0 (List_ regions "bare-proj" None) = Ok Demo.empty_region_list
  /\ py_getitem Demo.empty_region_list "items" = Raise (KeyError "items")
  /\ fst (Demo.run (mkArgs "bare-proj" "us-central1" false) Demo.fresh)
     = Raise (KeyError "items")
  /\ stdout (snd (Demo.run (mkArgs "bare-proj" "us-central1" false)
                    Demo.fresh))
     = []
  /\ fst (Demo.run (mkArgs "bare-proj" "us-central1" false) Demo.fresh)
     <> Raise (SystemExit 1).
Proof.
  split; [reflexivity|]. split; [reflexivity|].
  split; [vm_compute; reflexivity|].
  split; [vm_compute; reflexivity|].
  vm_compute. discriminate.
Qed.

(** C6 as stated fails: on the listing of [bare-proj], which has no
    [items], [check_region] returns no boolean for a region that is not
    listed: it raises [KeyError]. *)
Lemma check_region_returns_no_boolean :
  fst (check_region Demo.service "bare-proj" "moon-base1" Demo.fresh)
  = Raise (KeyError "items")
  /\ fst (check_region Demo.service "bare-proj" "moon-base1" Demo.fresh)
     <> Ok false
  /\ fst (check_region Demo.service "bare-proj" "moon-base1" Demo.fresh)
     <> Ok true.
Proof.
  split; [reflexivity|]. split; vm_compute; discriminate.
Qed.
